(** * h5_image_tools: the HDF5 image extractor ([extractor.py])

    A shallow embedding of class [H5ImageExtractor] and of the library
    calls it makes, followed by the properties of the scan and extract
    passes.

    What is modelled and how:
    - the object's attributes ([file_path], [total_images]) live in a
      [world] next to the trace of effects (the calls of
      [warnings.warn], whatever the warning filter then shows, and the
      dataset reads); every method is a computation in a state monad
      with exceptions over that world;
    - the external collaborators are data: the file system answers
      [Path.exists], [Path.is_file] and [tables.open_file]; a PyTables
      node hierarchy is an inductive tree whose child iteration
      ([_f_iter_nodes]) may raise and whose arrays may fail to [read];
    - [np.array] follows NumPy (1.24 and later) shape discovery on a list
      of arrays.
    A [Path] is held as the string [str()] prints for it, on a POSIX
    system; text is held as its UTF-8 bytes.  Text written by [print]
    and the release of the file handle at the end of a [with] block are
    not part of the model. *)

From Stdlib Require Import ZArith List String Ascii Bool Lia DecimalString.
Import ListNotations.

Open Scope string_scope.
Open Scope list_scope.
Open Scope Z_scope.

(** ** Exceptions and outcomes *)

(** The [Exception] subclasses that occur: those the extractor raises
    itself, [AttributeError] for a method missing on an object, and
    [LibraryError] for whatever PyTables, HDF5 or the operating system
    raise (class name and message). *)
Inductive exn : Type :=
| ValueError (msg : string)
| FileNotFoundError (msg : string)
| AttributeError (msg : string)
| LibraryError (cls msg : string).

(** [str(e)] *)
Definition str_exn (e : exn) : string :=
  match e with
  | ValueError m | FileNotFoundError m | AttributeError m => m
  | LibraryError _ m => m
  end.

Definition is_ValueError (e : exn) : bool :=
  match e with ValueError _ => true | _ => false end.

Inductive outcome (A : Type) : Type :=
| Ok (a : A)
| Raise (e : exn).
Arguments Ok {A} a.
Arguments Raise {A} e.

(** ** NumPy arrays and PyTables nodes *)

Inductive dtype : Type := uint8 | uint16 | int32 | float32 | float64.

(** An in-memory array: shape, element type and the raw element words. *)
Record ndarray : Type := mk_ndarray {
  nd_shape : list Z;
  nd_dtype : dtype;
  nd_buffer : list Z
}.

(** A [tables.Array] leaf (this covers its subclasses [CArray] and
    [EArray]): [stored] is what reading the dataset from disk gives. *)
Record ArrayLeaf : Type := mk_array {
  _v_pathname : string;
  shape : list Z;
  atom : dtype;
  stored : outcome (list Z)
}.

(** A node is an array, a group, or a leaf of another class (a [Table],
    a [VLArray], an [UnImplemented] dataset).  The children of a group
    are what the generator [_f_iter_nodes()] produces: nodes one by one,
    ended by [StopIteration] or by an exception raised while the next
    child is loaded. *)
Inductive node : Type :=
| Array (a : ArrayLeaf)
| Group (pathname : string) (it : children)
| OtherLeaf (pathname : string)
with children : Type :=
| StopIteration
| Yield (child : node) (rest : children)
| IterRaise (e : exn).

Scheme node_children_ind := Induction for node Sort Prop
  with children_node_ind := Induction for children Sort Prop.
Combined Scheme node_mutind from node_children_ind, children_node_ind.

(** An open file; [f.root] is always a group. *)
Record File : Type := mk_file { root_children : children }.

Definition root (f : File) : node := Group "/" (root_children f).

(** The part of the file system the extractor consults. *)
Record filesystem : Type := mk_fs {
  path_exists : string -> bool;
  path_is_file : string -> bool;
  open_file : string -> outcome File
}.

(** ** The world and the monad *)

Record H5ImageExtractor : Type := mk_extractor {
  file_path : string;
  total_images : Z
}.

Inductive event : Type :=
| EvWarn (msg : string)
| EvRead (pathname : string).

Record world : Type := mk_world {
  self : H5ImageExtractor;
  trace : list event
}.

Definition M (A : Type) : Type := world -> outcome A * world.

Definition ret {A} (a : A) : M A := fun w => (Ok a, w).

Definition raise {A} (e : exn) : M A := fun w => (Raise e, w).

Definition bind {A B} (m : M A) (k : A -> M B) : M B :=
  fun w =>
    match m w with
    | (Ok a, w') => k a w'
    | (Raise e, w') => (Raise e, w')
    end.

(** [try: m except Exception as e: h e] *)
Definition try_except {A} (m : M A) (h : exn -> M A) : M A :=
  fun w =>
    match m w with
    | (Ok a, w') => (Ok a, w')
    | (Raise e, w') => h e w'
    end.

(** [try: m except ValueError: h]; any other exception passes through. *)
Definition try_except_ValueError {A} (m : M A) (h : M A) : M A :=
  try_except m (fun e => if is_ValueError e then h else raise e).

Definition lift {A} (o : outcome A) : M A := fun w => (o, w).

Definition emit (ev : event) : M unit :=
  fun w => (Ok tt, mk_world (self w) (trace w ++ [ev])).

(** [warnings.warn(msg)] *)
Definition warn (msg : string) : M unit := emit (EvWarn msg).

Definition get_total_images : M Z := fun w => (Ok (total_images (self w)), w).

Definition get_file_path : M string := fun w => (Ok (file_path (self w)), w).

(** [self.total_images = v] *)
Definition set_total_images (v : Z) : M unit :=
  fun w => (Ok tt, mk_world (mk_extractor (file_path (self w)) v) (trace w)).

Declare Scope py_scope.
Delimit Scope py_scope with py.
Notation "x <- m ;; k" := (bind m (fun x => k))
  (at level 100, m at next level, right associativity) : py_scope.
Notation "m ;;; k" := (bind m (fun _ => k))
  (at level 100, right associativity) : py_scope.
Open Scope py_scope.

(** ** Library calls *)

(** [len(t)] for a tuple or a list *)
Definition len {A} (l : list A) : Z := Z.of_nat (List.length l).

(** [str(n)] for an integer *)
Definition str_int (n : Z) : string := NilZero.string_of_int (Z.to_int n).

(** [child.read()]: the whole dataset as an array of the node's shape and
    element type; the attempt is recorded in the trace. *)
Definition read (a : ArrayLeaf) : M ndarray :=
  emit (EvRead (_v_pathname a)) ;;;
  match stored a with
  | Ok buf => ret (mk_ndarray (shape a) (atom a) buf)
  | Raise e => raise e
  end.

(** [node._f_iter_nodes()]: only groups have the method. *)
Definition _f_iter_nodes (n : node) : M children :=
  match n with
  | Group _ it => ret it
  | _ => raise (AttributeError "_f_iter_nodes")
  end.

(** [Path(p)], as the string [str(Path(p))]: [posixpath.splitroot] takes
    the root off (one slash, or two when the text starts with exactly
    two), the rest is split at the slashes, empty components and [.]
    are dropped, and what is left is joined again; a path with neither
    root nor component prints as [.]. *)
Definition splitroot (p : list ascii) : list ascii * list ascii :=
  match p with
  | a :: p1 =>
      if Ascii.eqb a "/" then
        match p1 with
        | b :: p2 =>
            if Ascii.eqb b "/" then
              match p2 with
              | c :: _ =>
                  if Ascii.eqb c "/" then (["/"%char], p1)
                  else (["/"%char; "/"%char], p2)
              | [] => (["/"%char; "/"%char], p2)
              end
            else (["/"%char], p1)
        | [] => (["/"%char], p1)
        end
      else ([], p)
  | [] => ([], p)
  end.

(** [rel.split('/')] *)
Fixpoint split_slash (l : list ascii) : list (list ascii) :=
  match l with
  | [] => [[]]
  | c :: l' =>
      if Ascii.eqb c "/" then [] :: split_slash l'
      else
        match split_slash l' with
        | h :: t => (c :: h) :: t
        | [] => [[c]]
        end
  end.

(** [x and x != '.'] *)
Definition kept (x : list ascii) : bool :=
  match x with
  | [] => false
  | [c] => negb (Ascii.eqb c ".")
  | _ => true
  end.

(** ['/'.join(tail)] *)
Fixpoint join_slash (tail : list (list ascii)) : list ascii :=
  match tail with
  | [] => []
  | [x] => x
  | x :: rest => x ++ "/"%char :: join_slash rest
  end.

Definition Path_chars (p : list ascii) : list ascii :=
  let (rt, rel) := splitroot p in
  let tail := filter kept (split_slash rel) in
  match rt, tail with
  | [], [] => ["."%char]
  | _, _ => rt ++ join_slash tail
  end.

Definition Path (p : string) : string :=
  string_of_list_ascii (Path_chars (list_ascii_of_string p)).

(** [path.name] for a path that has a last component: the text after its
    last slash. *)
Fixpoint take_until (c : ascii) (l : list ascii) : list ascii :=
  match l with
  | [] => []
  | x :: l' => if Ascii.eqb x c then [] else x :: take_until c l'
  end.

Definition path_name (p : string) : string :=
  string_of_list_ascii
    (rev (take_until "/"%char (rev (list_ascii_of_string p)))).

(** [path.suffix]: with [i = name.rfind('.')], the text from the last
    dot on when [0 < i < len(name) - 1], and the empty string if not. *)
Definition path_suffix (p : string) : string :=
  let name := list_ascii_of_string (path_name p) in
  let ext := rev (take_until "."%char (rev name)) in
  let i := len name - len ext - 1 in
  if (0 <? i) && (i <? len name - 1)
  then string_of_list_ascii ("."%char :: ext)
  else "".

(** [s.lower()] on ASCII text *)
Definition lower_ascii (c : ascii) : ascii :=
  let n := nat_of_ascii c in
  if (65 <=? n)%nat && (n <=? 90)%nat then ascii_of_nat (n + 32) else c.

Definition lower (s : string) : string :=
  string_of_list_ascii (map lower_ascii (list_ascii_of_string s)).

(** *** [np.array] on a list of arrays

    NumPy takes the length of the list as the first dimension and then
    the dimensions on which all the arrays agree, from the left; the
    input is ragged when some array has further or other dimensions. *)
Fixpoint common_prefix (s t : list Z) : list Z :=
  match s, t with
  | a :: s', b :: t' => if a =? b then a :: common_prefix s' t' else []
  | _, _ => []
  end.

Definition discovered_dims (images : list ndarray) : list Z :=
  match images with
  | [] => []
  | a :: rest =>
      fold_left (fun p b => common_prefix p (nd_shape b)) rest (nd_shape a)
  end.

Fixpoint shape_eqb (s t : list Z) : bool :=
  match s, t with
  | [], [] => true
  | a :: s', b :: t' => (a =? b) && shape_eqb s' t'
  | _, _ => false
  end.

Definition ragged (images : list ndarray) : bool :=
  negb (forallb (fun a => shape_eqb (nd_shape a) (discovered_dims images))
                images).

(** [np.promote_types] *)
Definition promote_types (a b : dtype) : dtype :=
  match a, b with
  | float64, _ | _, float64 => float64
  | int32, float32 | float32, int32 => float64
  | float32, _ | _, float32 => float32
  | int32, _ | _, int32 => int32
  | uint16, _ | _, uint16 => uint16
  | uint8, uint8 => uint8
  end.

(** The element type of the result; [np.array([])] is [float64]. *)
Definition result_type (images : list ndarray) : dtype :=
  match images with
  | [] => float64
  | a :: rest => fold_left promote_types (map nd_dtype rest) (nd_dtype a)
  end.

(** Copying an array of shape [src] into a slot of shape [dst]: unit
    dimensions are dropped from the left of [src] while it has more
    dimensions than [dst]; what remains must broadcast to [dst]. *)
Fixpoint strip_units (src : list Z) (excess : nat) : list Z :=
  match excess, src with
  | S k, 1 :: src' => strip_units src' k
  | _, _ => src
  end.

Fixpoint broadcast_aligned (rsrc rdst : list Z) : bool :=
  match rsrc, rdst with
  | [], _ => true
  | _ :: _, [] => false
  | a :: rsrc', b :: rdst' =>
      ((a =? b) || (a =? 1)) && broadcast_aligned rsrc' rdst'
  end.

Definition can_copy_into (src dst : list Z) : bool :=
  broadcast_aligned
    (rev (strip_units src (List.length src - List.length dst)))
    (rev dst).

(** What [np.array] returns here.  [Stacked sh dt planes] is an array of
    shape [sh] and element type [dt] whose [i]-th plane holds the elements
    of [planes[i]], cast to [dt].  [ObjectArray sh elems] has
    [dtype=object] built from the arrays [elems]; with [sh = [K]] its
    [K] elements are the arrays [elems] themselves. *)
Inductive np_value : Type :=
| Stacked (sh : list Z) (dt : dtype) (planes : list ndarray)
| ObjectArray (sh : list Z) (elems : list ndarray).

(** [np.array(images)] when [as_object] is false and
    [np.array(images, dtype=object)] when it is true.  The messages stand
    for NumPy's longer ones. *)
Definition np_array (images : list ndarray) (as_object : bool)
  : outcome np_value :=
  let dims := discovered_dims images in
  if negb as_object then
    if ragged images
    then Raise (ValueError "inhomogeneous shape")
    else Ok (Stacked (len images :: dims) (result_type images) images)
  else
    if ragged images then
      match dims with
      | [] => Ok (ObjectArray [len images] images)
      | _ :: _ =>
          if forallb (fun a => can_copy_into (nd_shape a) dims) images
          then Ok (ObjectArray (len images :: dims) images)
          else Raise (ValueError "could not broadcast input array")
      end
    else Ok (ObjectArray (len images :: dims) images).

(** ** Messages of the warnings and errors *)

Definition msg_error_reading (path : string) (e : exn) : string :=
  ("Error reading " ++ path ++ ": " ++ str_exn e)%string.

Definition msg_could_not_read (a : ArrayLeaf) (e : exn) : string :=
  ("Could not read dataset '" ++ _v_pathname a ++ "': " ++ str_exn e)%string.

Definition msg_inconsistent : string :=
  "Images have inconsistent shapes. Returning as object array.".

Definition msg_no_images : string :=
  "No images found in file. Run scan_file() first.".

Definition msg_too_many (n_images total : Z) : string :=
  ("Requested " ++ str_int n_images ++ " images but only "
   ++ str_int total ++ " available")%string.

Definition msg_not_positive : string := "Number of images must be positive".

(** ** The counting pass *)

(** [H5ImageExtractor._recursive_count_arrays]; [count_loop] is the
    [for child in node._f_iter_nodes()] loop with its running count. *)
Fixpoint _recursive_count_arrays (n : node) (count : Z) {struct n} : M Z :=
  match n with
  | Group _ it => count_loop it count
  | _ => raise (AttributeError "_f_iter_nodes")
  end
with count_loop (it : children) (count : Z) {struct it} : M Z :=
  match it with
  | StopIteration => ret count
  | IterRaise e => raise e
  | Yield child rest =>
      match child with
      | Array a =>
          if 2 <=? len (shape a)
          then count_loop rest (count + 1)
          else count_loop rest count
      | Group _ _ =>
          count <- _recursive_count_arrays child count ;;
          count_loop rest count
      | OtherLeaf _ => count_loop rest count
      end
  end.

(** [H5ImageExtractor._count_images_in_file] *)
Definition _count_images_in_file (fs : filesystem) (h5_file : string) : M Z :=
  f <- lift (open_file fs h5_file) ;;
  count <- _recursive_count_arrays (root f) 0 ;;
  ret count.

(** [H5ImageExtractor.scan_file] *)
Definition scan_file (fs : filesystem) : M Z :=
  try_except
    (p <- get_file_path ;;
     c <- _count_images_in_file fs p ;;
     set_total_images c)
    (fun e =>
       p <- get_file_path ;;
       warn (msg_error_reading p e) ;;;
       set_total_images 0) ;;;
  get_total_images.

(** ** The extracting pass *)

(** [max_count is not None and len(images) >= max_count] *)
Definition reached (images : list ndarray) (max_count : option Z) : bool :=
  match max_count with
  | Some m => m <=? len images
  | None => false
  end.

(** [H5ImageExtractor._recursive_extract_arrays].  The Python method
    appends to the list [images] it is given; here the list is passed in
    and the extended list is returned.  [extract_loop] is the [for] loop:
    the generator is asked for the next child before the loop body tests
    whether to [break]. *)
Fixpoint _recursive_extract_arrays (n : node) (images : list ndarray)
    (max_count : option Z) {struct n} : M (list ndarray) :=
  if reached images max_count then ret images
  else
    match n with
    | Group _ it => extract_loop it images max_count
    | _ => raise (AttributeError "_f_iter_nodes")
    end
with extract_loop (it : children) (images : list ndarray)
    (max_count : option Z) {struct it} : M (list ndarray) :=
  match it with
  | StopIteration => ret images
  | IterRaise e => raise e
  | Yield child rest =>
      if reached images max_count then ret images
      else
        match child with
        | Array a =>
            if 2 <=? len (shape a) then
              images <-
                try_except
                  (img <- read a ;; ret (images ++ [img]))
                  (fun e =>
                     warn (msg_could_not_read a e) ;;;
                     ret images) ;;
              extract_loop rest images max_count
            else extract_loop rest images max_count
        | Group _ _ =>
            images <- _recursive_extract_arrays child images max_count ;;
            extract_loop rest images max_count
        | OtherLeaf _ => extract_loop rest images max_count
        end
  end.

(** [H5ImageExtractor._extract_from_file] *)
Definition _extract_from_file (fs : filesystem) (h5_file : string)
    (max_count : option Z) : M (list ndarray) :=
  f <- lift (open_file fs h5_file) ;;
  _recursive_extract_arrays (root f) [] max_count.

(** The last statement of [extract_images]: stack, or fall back to an
    object array when [np.array] raises [ValueError]. *)
Definition stack_or_fallback (images : list ndarray) : M np_value :=
  try_except_ValueError
    (lift (np_array images false))
    (warn msg_inconsistent ;;;
     lift (np_array images true)).

(** [H5ImageExtractor.extract_images] *)
Definition extract_images (fs : filesystem) (n_images : option Z)
  : M np_value :=
  total <- get_total_images ;;
  if total =? 0 then raise (ValueError msg_no_images)
  else
    let n_images :=
      match n_images with None => total | Some n => n end in
    if n_images >? total then raise (ValueError (msg_too_many n_images total))
    else if n_images <=? 0 then raise (ValueError msg_not_positive)
    else
      p <- get_file_path ;;
      images <- _extract_from_file fs p (Some n_images) ;;
      stack_or_fallback images.

(** [H5ImageExtractor.get_summary] *)
Definition get_summary : M (string * Z) :=
  p <- get_file_path ;;
  t <- get_total_images ;;
  ret (p, t).

(** ** The constructor *)

(** [self.file_path = v] *)
Definition set_file_path (v : string) : M unit :=
  fun w => (Ok tt, mk_world (mk_extractor v (total_images (self w))) (trace w)).

(** [H5ImageExtractor.__init__]: the tests and the warning are on
    [self.file_path], the error messages show the argument as given. *)
Definition __init__ (fs : filesystem) (file_path_arg : string) : M unit :=
  set_file_path (Path file_path_arg) ;;;
  p <- get_file_path ;;
  if negb (path_exists fs p)
  then raise (FileNotFoundError
                ("File does not exist: " ++ file_path_arg)%string)
  else if negb (path_is_file fs p)
  then raise (ValueError
                ("Path must be a file, not a directory: "
                 ++ file_path_arg)%string)
  else
    (if negb (String.eqb (lower (path_suffix p)) ".h5")
     then warn ("File doesn't have .h5 extension: " ++ p)%string
     else ret tt) ;;;
    set_total_images 0.

(** [H5ImageExtractor(path)]: [__init__] run on a new object; an object
    exists only when [__init__] returns. *)
Definition blank : H5ImageExtractor := mk_extractor "" 0.

Definition new_extractor (fs : filesystem) (path : string)
    (tr : list event) : outcome world :=
  match __init__ fs path (mk_world blank tr) with
  | (Ok _, w) => Ok w
  | (Raise e, _) => Raise e
  end.

(** ** Specification-level notions

    These follow the specification's wording (Tree Walker, Image Filter,
    Image Candidate) and are independent of the traversal code above. *)

(** Tree Walker: the depth-first sequence of all array nodes reachable
    through nested groups, in child-iteration order. *)
Fixpoint walk_node (n : node) : list ArrayLeaf :=
  match n with
  | Array a => [a]
  | Group _ it => walk it
  | OtherLeaf _ => []
  end
with walk (it : children) : list ArrayLeaf :=
  match it with
  | StopIteration => []
  | Yield child rest => walk_node child ++ walk rest
  | IterRaise _ => []
  end.

(** Image Filter: an array whose shape has rank at least 2. *)
Definition is_image (a : ArrayLeaf) : bool := 2 <=? len (shape a).

(** Image Candidates of a group's children, in traversal order. *)
Definition image_candidates (it : children) : list ArrayLeaf :=
  filter is_image (walk it).

(** Every node can be loaded: no child iteration raises. *)
Fixpoint iter_ok_node (n : node) : bool :=
  match n with
  | Group _ it => iter_ok it
  | _ => true
  end
with iter_ok (it : children) : bool :=
  match it with
  | StopIteration => true
  | Yield child rest => iter_ok_node child && iter_ok rest
  | IterRaise _ => false
  end.

Definition readable (a : ArrayLeaf) : bool :=
  match stored a with Ok _ => true | Raise _ => false end.

(** The arrays that reading the candidates gives, unreadable ones left
    out. *)
Definition image_of (a : ArrayLeaf) : list ndarray :=
  match stored a with
  | Ok buf => [mk_ndarray (shape a) (atom a) buf]
  | Raise _ => []
  end.

Definition readable_images (cands : list ArrayLeaf) : list ndarray :=
  flat_map image_of cands.

(** What visiting one candidate leaves in the trace. *)
Definition visit_events (a : ArrayLeaf) : list event :=
  match stored a with
  | Ok _ => [EvRead (_v_pathname a)]
  | Raise e => [EvRead (_v_pathname a); EvWarn (msg_could_not_read a e)]
  end.

(** The extracting pass as a linear scan over the candidates: stop at the
    first candidate met with the list already full. *)
Fixpoint take_images (cands : list ArrayLeaf) (images : list ndarray)
    (max_count : option Z) (tr : list event) : list ndarray * list event :=
  match cands with
  | [] => (images, tr)
  | a :: cands' =>
      if reached images max_count then (images, tr)
      else take_images cands' (images ++ image_of a) max_count
                       (tr ++ visit_events a)
  end.

(** The candidates the linear scan visits: a prefix of the candidates. *)
Fixpoint visited (cands : list ArrayLeaf) (images : list ndarray)
    (mc : option Z) : list ArrayLeaf :=
  match cands with
  | [] => []
  | a :: cands' =>
      if reached images mc then []
      else a :: visited cands' (images ++ image_of a) mc
  end.

(** The extracting pass, told through the linear scan. *)
Definition scanned (it : children) (images : list ndarray)
    (mc : option Z) (w : world) : outcome (list ndarray) * world :=
  let r := take_images (image_candidates it) images mc (trace w) in
  (Ok (fst r), mk_world (self w) (snd r)).

(** How many more arrays the list takes. *)
Definition room (images : list ndarray) (mc : option Z)
    (avail : nat) : nat :=
  match mc with
  | Some m => Z.to_nat (m - len images)
  | None => avail
  end.

(** The specification's error kinds, as [extract_images] raises them. *)
Definition InvalidState : exn := ValueError msg_no_images.

Definition OutOfRange (n_images total : Z) : exn :=
  ValueError (msg_too_many n_images total).

Definition InvalidArgument : exn := ValueError msg_not_positive.

(** All arrays of a list have one shape. *)
Definition same_shapes (images : list ndarray) : Prop :=
  forall a b, In a images -> In b images -> nd_shape a = nd_shape b.

(** All arrays of a list have one element type. *)
Definition same_dtypes (images : list ndarray) : Prop :=
  forall a b, In a images -> In b images -> nd_dtype a = nd_dtype b.

(** The arrays of a list agree on their first dimension. *)
Definition same_first_dim (images : list ndarray) : Prop :=
  forall a b, In a images -> In b images ->
    hd_error (nd_shape a) = hd_error (nd_shape b).

(** The candidates of a file, and the arrays reading them gives. *)
Definition candidates_of (f : File) : list ArrayLeaf :=
  image_candidates (root_children f).

Definition all_images (f : File) : list ndarray :=
  readable_images (candidates_of f).

Definition read_events (l : list ArrayLeaf) : list event :=
  map (fun a => EvRead (_v_pathname a)) l.

(** ** Example files *)

Definition ok_array (p : string) (sh : list Z) (dt : dtype) (buf : list Z)
  : node :=
  Array (mk_array p sh dt (Ok buf)).

Definition hdf5_error : exn :=
  LibraryError "HDF5ExtError" "Problems reading the array data.".

Definition bad_array (p : string) (sh : list Z) (dt : dtype) : node :=
  Array (mk_array p sh dt (Raise hdf5_error)).

(** A file system with one regular file, whatever the path. *)
Definition fs_of (it : children) : filesystem :=
  mk_fs (fun _ => true) (fun _ => true) (fun _ => Ok (mk_file it)).

Definition fresh (path : string) : world :=
  mk_world (mk_extractor path 0) [].

Definition scanned_world (path : string) (K : Z) : world :=
  mk_world (mk_extractor path K) [].

(** Group [/a] with an array of shape (10,10) and a subgroup [/a/b] with
    another, and a rank-1 array [/c]. *)
Definition nested_file : children :=
  Yield (Group "/a"
           (Yield (ok_array "/a/img" [10; 10] uint16 [1; 2])
           (Yield (Group "/a/b"
                     (Yield (ok_array "/a/b/img" [10; 10] uint16 [3; 4])
                      StopIteration))
            StopIteration)))
  (Yield (ok_array "/c" [5] uint16 [5])
   StopIteration).

(** Three candidates, the second of them unreadable. *)
Definition damaged_file : children :=
  Yield (ok_array "/x" [2; 2] uint8 [1; 2; 3; 4])
  (Yield (bad_array "/y" [2; 2] uint8)
  (Yield (ok_array "/z" [2; 2] uint8 [5; 6; 7; 8])
   StopIteration)).

(** A group whose children cannot be loaded, followed by a sound array. *)
Definition broken_group_file : children :=
  Yield (Group "/g" (IterRaise hdf5_error))
  (Yield (ok_array "/img" [2; 2] uint8 [1; 2; 3; 4])
   StopIteration).

(** Two readable candidates of shapes (4,4) and (4,5). *)
Definition columns_file : children :=
  Yield (ok_array "/p" [4; 4] uint8 (repeat 0 16))
  (Yield (ok_array "/q" [4; 5] uint8 (repeat 0 20))
   StopIteration).

(** The same with an unreadable candidate between the two. *)
Definition columns_damaged_file : children :=
  Yield (ok_array "/a" [4; 4] uint8 (repeat 0 16))
  (Yield (bad_array "/y" [4; 4] uint8)
  (Yield (ok_array "/b" [4; 5] uint8 (repeat 0 20))
   StopIteration)).

(** A file with a rank-1 array and nothing else: no candidate. *)
Definition flat_file : children :=
  Yield (ok_array "/c" [5] uint16 [1; 2; 3; 4; 5]) StopIteration.

(** ** Example lists of extracted arrays *)

(** Same shape, different element types. *)
Definition mixed_types : list ndarray :=
  [mk_ndarray [2; 2] int32 [1; 2; 3; 4];
   mk_ndarray [2; 2] float64 [5; 6; 7; 8]].

(** Shapes (4,4) and (5,4): the first dimensions differ. *)
Definition ragged_rows : list ndarray :=
  [mk_ndarray [4; 4] uint8 (repeat 0 16);
   mk_ndarray [5; 4] uint8 (repeat 0 20)].

(** Shapes (4,4) and (4,5): the first dimensions agree. *)
Definition ragged_columns : list ndarray :=
  [mk_ndarray [4; 4] uint8 (repeat 0 16);
   mk_ndarray [4; 5] uint8 (repeat 0 20)].

(** Two arrays of shape (10,10). *)
Definition two_squares : list ndarray :=
  [mk_ndarray [10; 10] uint16 [1; 2];
   mk_ndarray [10; 10] uint16 [3; 4]].

(** ** The rest of the module and its callers *)

(** [s.strip()].  White space is what [str.isspace] accepts: U+0009 to
    U+000D, U+001C to U+0020, U+0085, U+00A0, U+1680, U+2000 to U+200A,
    U+2028, U+2029, U+202F, U+205F and U+3000, here in UTF-8. *)
Definition is_space (n : nat) : bool :=
  ((9 <=? n)%nat && (n <=? 13)%nat) || ((28 <=? n)%nat && (n <=? 32)%nat).

Definition is_space2 (x y : nat) : bool :=
  (x =? 194)%nat && ((y =? 133)%nat || (y =? 160)%nat).

Definition is_space3 (x y z : nat) : bool :=
  ((x =? 225)%nat && (y =? 154)%nat && (z =? 128)%nat)
  || ((x =? 226)%nat && (y =? 128)%nat
      && (((128 <=? z)%nat && (z <=? 138)%nat)
          || (z =? 168)%nat || (z =? 169)%nat || (z =? 175)%nat))
  || ((x =? 226)%nat && (y =? 129)%nat && (z =? 159)%nat)
  || ((x =? 227)%nat && (y =? 128)%nat && (z =? 128)%nat).

(** One white-space character taken off the front of the text. *)
Definition drop_space (l : list ascii) : option (list ascii) :=
  match l with
  | a :: l1 =>
      if is_space (nat_of_ascii a) then Some l1
      else
        match l1 with
        | b :: l2 =>
            if is_space2 (nat_of_ascii a) (nat_of_ascii b) then Some l2
            else
              match l2 with
              | c :: l3 =>
                  if is_space3 (nat_of_ascii a) (nat_of_ascii b)
                               (nat_of_ascii c)
                  then Some l3 else None
              | [] => None
              end
        | [] => None
        end
  | [] => None
  end.

(** The same off the end of the text, given back to front. *)
Definition drop_space_rev (l : list ascii) : option (list ascii) :=
  match l with
  | c :: l1 =>
      if is_space (nat_of_ascii c) then Some l1
      else
        match l1 with
        | b :: l2 =>
            if is_space2 (nat_of_ascii b) (nat_of_ascii c) then Some l2
            else
              match l2 with
              | a :: l3 =>
                  if is_space3 (nat_of_ascii a) (nat_of_ascii b)
                               (nat_of_ascii c)
                  then Some l3 else None
              | [] => None
              end
        | [] => None
        end
  | [] => None
  end.

Fixpoint drop_while (drop : list ascii -> option (list ascii)) (fuel : nat)
    (l : list ascii) : list ascii :=
  match fuel with
  | O => l
  | S fuel' =>
      match drop l with
      | Some l' => drop_while drop fuel' l'
      | None => l
      end
  end.

Definition lstrip (l : list ascii) : list ascii :=
  drop_while drop_space (List.length l) l.

Definition rstrip_rev (l : list ascii) : list ascii :=
  drop_while drop_space_rev (List.length l) l.

Definition strip (s : string) : string :=
  string_of_list_ascii
    (rev (rstrip_rev (rev (lstrip (list_ascii_of_string s))))).

(** [extract_h5_images], the one-call function of the module.  Its local
    object [extractor] is the [self] of the world it runs in, new when the
    function starts; [stdin] is what [input()] gives, and is asked for
    only when [n_images] is [None]. *)
Definition extract_h5_images (fs : filesystem) (path : string)
    (n_images : option Z) (stdin : outcome string) : M np_value :=
  __init__ fs path ;;;
  scan_file fs ;;;
  match n_images with
  | None =>
      line <- lift stdin ;;
      let user_input := lower (strip line) in
      if negb (String.eqb user_input "y")
      then lift (np_array [] false)
      else extract_images fs n_images
  | Some _ => extract_images fs n_images
  end.

(** [example_detailed] of [example.py]: construct on
    [str(Path(path))], scan, summarise, extract ten images. *)
Definition example_detailed (fs : filesystem) (path : string) : M np_value :=
  let data_file := Path path in
  __init__ fs data_file ;;;
  image_count <- scan_file fs ;;
  summary <- get_summary ;;
  images <- extract_images fs (Some 10) ;;
  ret images.

(** The first exception that walking the nodes depth-first runs into. *)
Fixpoint first_failure_node (n : node) : option exn :=
  match n with
  | Group _ it => first_failure it
  | _ => None
  end
with first_failure (it : children) : option exn :=
  match it with
  | StopIteration => None
  | Yield child rest =>
      match first_failure_node child with
      | Some e => Some e
      | None => first_failure rest
      end
  | IterRaise e => Some e
  end.

(** What counting the images of the file at [path] comes to. *)
Definition count_outcome (fs : filesystem) (path : string) : outcome Z :=
  match open_file fs path with
  | Raise e => Raise e
  | Ok f =>
      match first_failure (root_children f) with
      | Some e => Raise e
      | None => Ok (len (candidates_of f))
      end
  end.

(** The warning of the constructor, if any. *)
Definition init_events (path : string) : list event :=
  if negb (String.eqb (lower (path_suffix path)) ".h5")
  then [EvWarn ("File doesn't have .h5 extension: " ++ path)%string]
  else [].

(** The warning of a scan, if any. *)
Definition scan_events (fs : filesystem) (path : string) : list event :=
  match count_outcome fs path with
  | Ok _ => []
  | Raise e => [EvWarn (msg_error_reading path e)]
  end.

Definition scan_count (fs : filesystem) (path : string) : Z :=
  match count_outcome fs path with
  | Ok c => c
  | Raise _ => 0
  end.

(** [np.array([])] *)
Definition np_empty : np_value := Stacked [0] float64 [].

(** Every candidate of [unreadable_file] fails to read. *)
Definition unreadable_file : children :=
  Yield (bad_array "/x" [2; 2] uint8)
  (Yield (Group "/g" (Yield (bad_array "/g/y" [3; 3] uint8) StopIteration))
   StopIteration).

(** Twelve images of one shape. *)
Fixpoint frames (k : nat) : children :=
  match k with
  | O => StopIteration
  | S k' => Yield (ok_array "/frame" [2; 2] uint8 [0; 0; 0; 0]) (frames k')
  end.

(** What one run of the extracting pass over nodes with candidates
    [cands] may do, from the list [images] in world [w]: visit some of the
    candidates, leave their events in the trace, and, when it returns,
    return [images] extended by the arrays read, within the bound. *)
Definition extract_post (cands : list ArrayLeaf) (images : list ndarray)
    (mc : option Z) (w : world) (res : outcome (list ndarray) * world)
  : Prop :=
  exists vis,
    incl vis cands
    /\ snd res = mk_world (self w) (trace w ++ flat_map visit_events vis)
    /\ (forall imgs,
          fst res = Ok imgs ->
          imgs = images ++ readable_images vis
          /\ (forall m, mc = Some m -> len imgs <= Z.max m (len images))).

(** * Properties *)

(** ** Basic facts *)

Lemma len_app {A} (l l' : list A) : len (l ++ l') = len l + len l'.
Proof. unfold len. rewrite length_app. lia. Qed.

Lemma len_nonneg {A} (l : list A) : 0 <= len l.
Proof. unfold len. lia. Qed.

Lemma len_cons {A} (a : A) (l : list A) : len (a :: l) = 1 + len l.
Proof. unfold len. simpl List.length. lia. Qed.

Lemma len_nil {A} : len (@nil A) = 0.
Proof. reflexivity. Qed.

Lemma len_firstn {A} (l : list A) n :
  0 <= n <= len l -> len (firstn (Z.to_nat n) l) = n.
Proof. unfold len. intros H. rewrite length_firstn. lia. Qed.

Lemma firstn_len {A} (l : list A) : firstn (Z.to_nat (len l)) l = l.
Proof. unfold len. rewrite Nat2Z.id. apply firstn_all. Qed.

Lemma image_candidates_array a rest :
  image_candidates (Yield (Array a) rest)
  = if is_image a then a :: image_candidates rest else image_candidates rest.
Proof. unfold image_candidates. simpl. destruct (is_image a); reflexivity. Qed.

Lemma image_candidates_group p it rest :
  image_candidates (Yield (Group p it) rest)
  = image_candidates it ++ image_candidates rest.
Proof. unfold image_candidates. simpl. apply filter_app. Qed.

Lemma image_candidates_other p rest :
  image_candidates (Yield (OtherLeaf p) rest) = image_candidates rest.
Proof. reflexivity. Qed.

Lemma _recursive_count_arrays_unfold n count :
  _recursive_count_arrays n count
  = (it <- _f_iter_nodes n ;; count_loop it count).
Proof. destruct n; reflexivity. Qed.

Lemma _recursive_extract_arrays_unfold n images mc :
  _recursive_extract_arrays n images mc
  = if reached images mc then ret images
    else (it <- _f_iter_nodes n ;; extract_loop it images mc).
Proof. destruct n; reflexivity. Qed.

(** ** The counting pass counts the candidates *)

Lemma count_loop_candidates :
  (forall n count w, iter_ok_node n = true ->
     match n with
     | Group _ it =>
         _recursive_count_arrays n count w
         = (Ok (count + len (image_candidates it)), w)
     | _ => True
     end)
  /\
  (forall it count w, iter_ok it = true ->
     count_loop it count w = (Ok (count + len (image_candidates it)), w)).
Proof.
  apply node_mutind.
  - trivial.
  - intros p it IH count w H. simpl in *. apply IH. exact H.
  - trivial.
  - intros count w _. simpl. unfold ret, image_candidates. simpl.
    rewrite len_nil, Z.add_0_r. reflexivity.
  - intros child IHc rest IHr count w H.
    simpl in H. apply andb_true_iff in H. destruct H as [Hc Hr].
    destruct child as [a | p it | p].
    + rewrite image_candidates_array. simpl. fold (is_image a).
      destruct (is_image a); rewrite IHr by exact Hr.
      * rewrite len_cons. do 2 f_equal. lia.
      * reflexivity.
    + specialize (IHc count w Hc).
      change (count_loop (Yield (Group p it) rest) count w)
        with (bind (_recursive_count_arrays (Group p it) count)
                   (fun c => count_loop rest c) w).
      unfold bind. rewrite IHc. rewrite IHr by exact Hr.
      rewrite image_candidates_group, len_app. do 2 f_equal. lia.
    + rewrite image_candidates_other. simpl. apply IHr, Hr.
  - intros e count w H. discriminate H.
Qed.

(** The counting pass leaves the world as it found it: it reads no
    dataset and warns about nothing, whether it returns or raises. *)
Lemma count_loop_pure :
  (forall n count w, snd (_recursive_count_arrays n count w) = w)
  /\ (forall it count w, snd (count_loop it count w) = w).
Proof.
  apply node_mutind.
  - reflexivity.
  - intros p it IH count w. simpl. apply IH.
  - reflexivity.
  - reflexivity.
  - intros child IHc rest IHr count w.
    destruct child as [a | p it | p].
    + simpl. destruct (2 <=? len (shape a)); apply IHr.
    + change (count_loop (Yield (Group p it) rest) count w)
        with (bind (_recursive_count_arrays (Group p it) count)
                   (fun c => count_loop rest c) w).
      unfold bind. specialize (IHc count w).
      destruct (_recursive_count_arrays (Group p it) count w) as [[c | e] w'];
        simpl in IHc; subst w'.
      * apply IHr.
      * reflexivity.
    + simpl. apply IHr.
  - reflexivity.
Qed.

(** ** The extracting pass is the linear scan over the candidates *)

Lemma world_eta w : mk_world (self w) (trace w) = w.
Proof. destruct w; reflexivity. Qed.

Lemma take_images_reached cands images mc tr :
  reached images mc = true ->
  take_images cands images mc tr = (images, tr).
Proof. intros H. destruct cands; simpl; [ | rewrite H ]; reflexivity. Qed.

Lemma take_images_app c1 c2 images mc tr :
  take_images (c1 ++ c2) images mc tr
  = take_images c2 (fst (take_images c1 images mc tr)) mc
                (snd (take_images c1 images mc tr)).
Proof.
  revert images tr. induction c1 as [ | a c1 IH]; intros images tr.
  - reflexivity.
  - simpl. destruct (reached images mc) eqn:R.
    + simpl. symmetry. apply take_images_reached, R.
    + apply IH.
Qed.

(** One qualifying array met with room left in the list. *)
Lemma visit_array a images w :
  try_except
    (img <- read a ;; ret (images ++ [img]))
    (fun e => warn (msg_could_not_read a e) ;;; ret images) w
  = (Ok (images ++ image_of a),
     mk_world (self w) (trace w ++ visit_events a)).
Proof.
  unfold try_except, bind, read, emit, warn, image_of, visit_events, ret, raise.
  simpl. destruct (stored a) as [buf | e]; simpl.
  - reflexivity.
  - rewrite app_nil_r, <- app_assoc. reflexivity.
Qed.

Lemma extract_loop_take_images :
  (forall n images mc w, iter_ok_node n = true ->
     match n with
     | Group _ it =>
         _recursive_extract_arrays n images mc w = scanned it images mc w
     | _ => True
     end)
  /\
  (forall it images mc w, iter_ok it = true ->
     extract_loop it images mc w = scanned it images mc w).
Proof.
  apply node_mutind.
  - trivial.
  - intros p it IH images mc w H. simpl in H.
    simpl. destruct (reached images mc) eqn:R.
    + unfold scanned. rewrite take_images_reached by exact R.
      simpl. rewrite world_eta. reflexivity.
    + apply IH, H.
  - trivial.
  - intros images mc w _. unfold scanned. simpl. rewrite world_eta.
    reflexivity.
  - intros child IHc rest IHr images mc w H.
    simpl in H. apply andb_true_iff in H. destruct H as [Hc Hr].
    destruct (reached images mc) eqn:R.
    + unfold scanned. rewrite take_images_reached by exact R.
      simpl. rewrite R. simpl. rewrite world_eta. reflexivity.
    + destruct child as [a | p it | p].
      * simpl. rewrite R. fold (is_image a).
        unfold scanned. rewrite image_candidates_array.
        destruct (is_image a).
        -- unfold bind at 1.
           rewrite visit_array. rewrite IHr by exact Hr.
           unfold scanned. simpl. rewrite R. reflexivity.
        -- apply IHr, Hr.
      * specialize (IHc images mc w Hc).
        change (extract_loop (Yield (Group p it) rest) images mc w)
          with ((if reached images mc then ret images
                 else bind (_recursive_extract_arrays (Group p it) images mc)
                           (fun im => extract_loop rest im mc)) w).
        rewrite R. unfold bind. rewrite IHc. unfold scanned at 1.
        rewrite IHr by exact Hr. unfold scanned. simpl.
        rewrite image_candidates_group, take_images_app. reflexivity.
      * simpl. rewrite R. rewrite IHr by exact Hr. reflexivity.
  - intros e images mc w H. discriminate H.
Qed.

Lemma take_images_fst cands : forall images mc tr,
  fst (take_images cands images mc tr)
  = images ++ firstn (room images mc (List.length (readable_images cands)))
                     (readable_images cands).
Proof.
  induction cands as [ | a cands IH]; intros images mc tr.
  - simpl. rewrite firstn_nil, app_nil_r. reflexivity.
  - simpl. destruct (reached images mc) eqn:R.
    + simpl. destruct mc as [m | ]; [ | discriminate R].
      simpl in *. apply Z.leb_le in R.
      replace (Z.to_nat (m - len images)) with 0%nat by lia.
      simpl. rewrite app_nil_r. reflexivity.
    + rewrite IH. unfold readable_images at 3 4. simpl flat_map.
      fold (readable_images cands).
      unfold image_of. destruct (stored a) as [buf | e].
      * rewrite <- app_assoc. f_equal.
        destruct mc as [m | ]; simpl room.
        -- simpl in R. apply Z.leb_gt in R. rewrite len_app, len_cons, len_nil.
           replace (Z.to_nat (m - len images))
             with (S (Z.to_nat (m - (len images + (1 + 0))))) by lia.
           reflexivity.
        -- cbn [app List.length]. rewrite firstn_cons. reflexivity.
      * rewrite app_nil_r. reflexivity.
Qed.

Lemma take_images_snd cands : forall images mc tr,
  snd (take_images cands images mc tr)
  = tr ++ flat_map visit_events (visited cands images mc).
Proof.
  induction cands as [ | a cands IH]; intros images mc tr; simpl.
  - rewrite app_nil_r. reflexivity.
  - destruct (reached images mc); simpl.
    + rewrite app_nil_r. reflexivity.
    + rewrite IH, <- app_assoc. reflexivity.
Qed.

Lemma visited_prefix cands : forall images mc,
  visited cands images mc
  = firstn (List.length (visited cands images mc)) cands.
Proof.
  induction cands as [ | a cands IH]; intros images mc; simpl.
  - reflexivity.
  - destruct (reached images mc); simpl.
    + reflexivity.
    + f_equal. apply IH.
Qed.

Lemma image_of_readable a :
  readable a = true -> List.length (image_of a) = 1%nat.
Proof.
  unfold readable, image_of.
  destruct (stored a); [reflexivity | discriminate].
Qed.

Lemma readable_images_length cands :
  forallb readable cands = true ->
  List.length (readable_images cands) = List.length cands.
Proof.
  induction cands as [ | a cands IH]; simpl; intros H.
  - reflexivity.
  - apply andb_true_iff in H. destruct H as [Ha Hc].
    rewrite length_app, image_of_readable, IH by assumption. reflexivity.
Qed.

(** With every candidate readable, the scan visits exactly as many
    candidates as there is room for. *)
Lemma visited_all_readable cands : forall images m,
  forallb readable cands = true ->
  visited cands images (Some m) = firstn (Z.to_nat (m - len images)) cands.
Proof.
  induction cands as [ | a cands IH]; intros images m H; simpl.
  - rewrite firstn_nil. reflexivity.
  - apply andb_true_iff in H. destruct H as [Ha Hc].
    destruct (m <=? len images) eqn:R.
    + apply Z.leb_le in R.
      replace (Z.to_nat (m - len images)) with 0%nat by lia. reflexivity.
    + apply Z.leb_gt in R. rewrite IH by exact Hc.
      assert (L : len (images ++ image_of a) = len images + 1).
      { unfold len. rewrite length_app, image_of_readable by exact Ha. lia. }
      rewrite L.
      replace (Z.to_nat (m - len images))
        with (S (Z.to_nat (m - (len images + 1)))) by lia.
      reflexivity.
Qed.

(** When the readable candidates cannot fill the list, every candidate
    is visited. *)
Lemma visited_exhausted cands : forall images m,
  len images + len (readable_images cands) < m ->
  visited cands images (Some m) = cands.
Proof.
  induction cands as [ | a cands IH]; intros images m H; simpl.
  - reflexivity.
  - unfold readable_images in H. simpl in H. fold (readable_images cands) in H.
    rewrite len_app in H. pose proof (len_nonneg (image_of a)).
    pose proof (len_nonneg (readable_images cands)).
    destruct (m <=? len images) eqn:R.
    + apply Z.leb_le in R. lia.
    + f_equal. apply IH. rewrite len_app. lia.
Qed.

Lemma visit_events_readable l :
  forallb readable l = true ->
  flat_map visit_events l = map (fun a => EvRead (_v_pathname a)) l.
Proof.
  induction l as [ | a l IH]; simpl; intros H.
  - reflexivity.
  - apply andb_true_iff in H. destruct H as [Ha Hl].
    rewrite IH by exact Hl. unfold visit_events, readable in *.
    destruct (stored a); [reflexivity | discriminate].
Qed.

Lemma forallb_firstn {A} (p : A -> bool) n l :
  forallb p l = true -> forallb p (firstn n l) = true.
Proof.
  revert n. induction l as [ | a l IH]; intros [ | n] H; simpl in *;
    try reflexivity.
  apply andb_true_iff in H. destruct H as [Ha Hl].
  rewrite Ha. simpl. apply IH, Hl.
Qed.

(** ** The methods on a file that opens and whose nodes all load *)

Lemma _count_images_in_file_ok fs f w path :
  open_file fs path = Ok f ->
  iter_ok (root_children f) = true ->
  _count_images_in_file fs path w
  = (Ok (len (image_candidates (root_children f))), w).
Proof.
  intros Hopen Hiter. unfold _count_images_in_file, bind, lift.
  rewrite Hopen.
  destruct count_loop_candidates as [Hn _].
  specialize (Hn (root f) 0 w Hiter). simpl in Hn. simpl.
  rewrite Hn. reflexivity.
Qed.

Lemma scan_file_ok fs f w :
  open_file fs (file_path (self w)) = Ok f ->
  iter_ok (root_children f) = true ->
  scan_file fs w
  = (Ok (len (image_candidates (root_children f))),
     mk_world (mk_extractor (file_path (self w))
                            (len (image_candidates (root_children f))))
              (trace w)).
Proof.
  intros Hopen Hiter.
  unfold scan_file, bind, try_except, get_file_path.
  rewrite (_count_images_in_file_ok fs f) by assumption.
  reflexivity.
Qed.

Lemma _extract_from_file_ok fs f w path mc :
  open_file fs path = Ok f ->
  iter_ok (root_children f) = true ->
  _extract_from_file fs path mc w = scanned (root_children f) [] mc w.
Proof.
  intros Hopen Hiter. unfold _extract_from_file, bind, lift.
  rewrite Hopen.
  destruct extract_loop_take_images as [Hn _].
  apply (Hn (root f) [] mc w Hiter).
Qed.

Lemma scan_file_cases fs w :
  scan_file fs w
  = match _count_images_in_file fs (file_path (self w)) w with
    | (Ok c, w') =>
        (Ok c, mk_world (mk_extractor (file_path (self w')) c) (trace w'))
    | (Raise e, w') =>
        (Ok 0,
         mk_world (mk_extractor (file_path (self w')) 0)
                  (trace w' ++ [EvWarn (msg_error_reading
                                          (file_path (self w')) e)]))
    end.
Proof.
  unfold scan_file, bind, try_except, get_file_path.
  destruct (_count_images_in_file fs (file_path (self w)) w) as [[c | e] w'];
    reflexivity.
Qed.

(** [scan_file] always returns, and what it returns is the cached count. *)
Lemma scan_file_returns_cached fs w o w1 :
  scan_file fs w = (o, w1) ->
  o = Ok (total_images (self w1)) /\ file_path (self w1) = file_path (self w).
Proof.
  rewrite scan_file_cases.
  pose proof (count_loop_pure) as [Hn _].
  unfold _count_images_in_file, bind, lift.
  destruct (open_file fs (file_path (self w))) as [f | e].
  - specialize (Hn (root f) 0 w).
    destruct (_recursive_count_arrays (root f) 0 w) as [[c | e] w'];
      simpl in Hn; subst w'; intros H; inversion H; subst; simpl; auto.
  - intros H; inversion H; subst; simpl; auto.
Qed.

(** ** What the assembling step returns *)

(** Past its three checks, [extract_images] extracts and assembles. *)
Lemma extract_images_in_range fs n w :
  1 <= n <= total_images (self w) ->
  extract_images fs (Some n) w
  = (images <- _extract_from_file fs (file_path (self w)) (Some n) ;;
     stack_or_fallback images) w.
Proof.
  intros H. unfold extract_images, bind at 1, get_total_images.
  destruct (total_images (self w) =? 0) eqn:E0;
    [apply Z.eqb_eq in E0; lia | ].
  destruct (n >? total_images (self w)) eqn:E1;
    [apply Z.gtb_lt in E1; lia | ].
  destruct (n <=? 0) eqn:E2; [apply Z.leb_le in E2; lia | ].
  reflexivity.
Qed.

(** ** Shape discovery *)

Lemma shape_eqb_eq s t : shape_eqb s t = true <-> s = t.
Proof.
  revert t. induction s as [ | a s IH]; intros [ | b t]; simpl;
    try (split; [discriminate | congruence]); [tauto | ].
  rewrite andb_true_iff, Z.eqb_eq, IH. split.
  - intros [-> ->]. reflexivity.
  - intros H. inversion H. auto.
Qed.

Lemma common_prefix_refl s : common_prefix s s = s.
Proof.
  induction s as [ | a s IH]; simpl; [reflexivity | ].
  rewrite Z.eqb_refl, IH. reflexivity.
Qed.

Lemma common_prefix_l s t : exists r, s = common_prefix s t ++ r.
Proof.
  revert t. induction s as [ | a s IH]; intros t; simpl.
  - exists []. reflexivity.
  - destruct t as [ | b t].
    + eexists. reflexivity.
    + destruct (a =? b).
      * destruct (IH t) as [r Hr]. exists r. simpl. f_equal. exact Hr.
      * eexists. reflexivity.
Qed.

Lemma common_prefix_r s t : exists r, t = common_prefix s t ++ r.
Proof.
  revert t. induction s as [ | a s IH]; intros t; simpl.
  - exists t. reflexivity.
  - destruct t as [ | b t].
    + exists []. reflexivity.
    + destruct (a =? b) eqn:E.
      * apply Z.eqb_eq in E. subst b.
        destruct (IH t) as [r Hr]. exists r. simpl. f_equal. exact Hr.
      * eexists. reflexivity.
Qed.

Lemma fold_common_prefix rest : forall p0,
  (exists r, p0 = fold_left (fun p b => common_prefix p (nd_shape b)) rest p0
                  ++ r)
  /\ (forall b, In b rest ->
        exists r,
          nd_shape b
          = fold_left (fun p b => common_prefix p (nd_shape b)) rest p0 ++ r).
Proof.
  induction rest as [ | c rest IH]; intros p0; simpl.
  - split; [exists []; rewrite app_nil_r; reflexivity | intros b []].
  - destruct (IH (common_prefix p0 (nd_shape c))) as [[r Hr] Hin].
    split.
    + destruct (common_prefix_l p0 (nd_shape c)) as [r' Hr'].
      exists (r ++ r'). rewrite app_assoc, <- Hr. exact Hr'.
    + intros b [-> | Hb].
      * destruct (common_prefix_r p0 (nd_shape b)) as [r' Hr'].
        exists (r ++ r'). rewrite app_assoc, <- Hr. exact Hr'.
      * apply Hin, Hb.
Qed.

(** The discovered dimensions are a prefix of every shape. *)
Lemma discovered_dims_prefix images a :
  In a images -> exists r, nd_shape a = discovered_dims images ++ r.
Proof.
  destruct images as [ | a0 rest]; [intros [] | ].
  simpl. destruct (fold_common_prefix rest (nd_shape a0)) as [H0 Hin].
  intros [<- | Ha]; [exact H0 | apply Hin, Ha].
Qed.

Lemma fold_common_prefix_same rest : forall s,
  (forall b, In b rest -> nd_shape b = s) ->
  fold_left (fun p b => common_prefix p (nd_shape b)) rest s = s.
Proof.
  induction rest as [ | c rest IH]; intros s H; simpl; [reflexivity | ].
  rewrite (H c) by (left; reflexivity). rewrite common_prefix_refl.
  apply IH. intros b Hb. apply H. right. exact Hb.
Qed.

Lemma discovered_dims_same images s :
  images <> [] ->
  (forall a, In a images -> nd_shape a = s) ->
  discovered_dims images = s.
Proof.
  destruct images as [ | a0 rest]; [congruence | ]. intros _ H. simpl.
  rewrite (H a0) by (left; reflexivity).
  apply fold_common_prefix_same. intros b Hb. apply H. right. exact Hb.
Qed.

(** The input is ragged exactly when two arrays differ in shape. *)
Lemma ragged_false_iff images : ragged images = false <-> same_shapes images.
Proof.
  unfold ragged. rewrite negb_false_iff, forallb_forall. split.
  - intros H a b Ha Hb.
    apply H, shape_eqb_eq in Ha. apply H, shape_eqb_eq in Hb. congruence.
  - intros H a Ha. apply shape_eqb_eq. symmetry.
    apply discovered_dims_same.
    + intros ->. exact Ha.
    + intros b Hb. apply H; assumption.
Qed.

Lemma ragged_true_iff images : ragged images = true <-> ~ same_shapes images.
Proof.
  rewrite <- ragged_false_iff. destruct (ragged images); split; congruence.
Qed.

Lemma discovered_dims_first_dim images :
  ~ same_first_dim images -> discovered_dims images = [].
Proof.
  intros H. destruct (discovered_dims images) as [ | d ds] eqn:E;
    [reflexivity | ].
  exfalso. apply H. intros a b Ha Hb.
  destruct (discovered_dims_prefix images a Ha) as [ra Hra].
  destruct (discovered_dims_prefix images b Hb) as [rb Hrb].
  rewrite Hra, Hrb, E. reflexivity.
Qed.

Lemma same_shapes_first_dim images :
  same_shapes images -> same_first_dim images.
Proof. intros H a b Ha Hb. rewrite (H a b Ha Hb). reflexivity. Qed.

(** The two ways the assembling step goes. *)
Lemma stack_or_fallback_uniform images w :
  ragged images = false ->
  stack_or_fallback images w
  = (Ok (Stacked (len images :: discovered_dims images)
                 (result_type images) images), w).
Proof.
  intros H.
  unfold stack_or_fallback, try_except_ValueError, try_except, lift, np_array.
  simpl. rewrite H. reflexivity.
Qed.

Lemma stack_or_fallback_ragged images w :
  ragged images = true ->
  stack_or_fallback images w
  = (np_array images true,
     mk_world (self w) (trace w ++ [EvWarn msg_inconsistent])).
Proof.
  intros H.
  unfold stack_or_fallback, try_except_ValueError, try_except, lift, bind,
    warn, emit.
  unfold np_array at 1. simpl. rewrite H. reflexivity.
Qed.

Lemma stack_or_fallback_same_shape images w s :
  images <> [] ->
  (forall a, In a images -> nd_shape a = s) ->
  stack_or_fallback images w
  = (Ok (Stacked (len images :: s) (result_type images) images), w).
Proof.
  intros Hne Hs. rewrite stack_or_fallback_uniform.
  - rewrite (discovered_dims_same images s) by assumption. reflexivity.
  - apply ragged_false_iff. intros a b Ha Hb.
    rewrite (Hs a Ha), (Hs b Hb). reflexivity.
Qed.

Lemma firstn_nonempty {A} (l : list A) n :
  1 <= n <= len l -> firstn (Z.to_nat n) l <> [].
Proof.
  intros H E. apply (f_equal len) in E.
  rewrite len_firstn, len_nil in E by lia. lia.
Qed.

Lemma In_firstn {A} (l : list A) n a : In a (firstn n l) -> In a l.
Proof.
  intros H. rewrite <- (firstn_skipn n l). apply in_or_app. left. exact H.
Qed.

Lemma extract_images_no_count fs n w :
  total_images (self w) = 0 ->
  extract_images fs n w = (Raise InvalidState, w).
Proof.
  intros H. unfold extract_images, bind, get_total_images.
  rewrite H. reflexivity.
Qed.

Lemma stack_or_fallback_first_dim images w :
  ~ same_first_dim images ->
  stack_or_fallback images w
  = (Ok (ObjectArray [len images] images),
     mk_world (self w) (trace w ++ [EvWarn msg_inconsistent])).
Proof.
  intros H.
  assert (R : ragged images = true).
  { apply ragged_true_iff. intros Hs. apply H.
    apply same_shapes_first_dim, Hs. }
  rewrite stack_or_fallback_ragged by exact R.
  unfold np_array. simpl. rewrite R.
  rewrite discovered_dims_first_dim by exact H. reflexivity.
Qed.

(** ** The claims *)

(** C1. For a file that opens, whose nodes all load, and that holds
    exactly [K] array nodes of rank at least 2 at whatever depth,
    [scan_file] returns [K] and leaves [K] in [total_images]; arrays of
    rank 0 or 1 and nodes that are not arrays are not in the count, since
    [K] is the number of nodes of the walk that pass the image filter. *)
Theorem scan_file_counts_candidates fs f w K :
  open_file fs (file_path (self w)) = Ok f ->
  iter_ok (root_children f) = true ->
  len (filter is_image (walk (root_children f))) = K ->
  scan_file fs w
  = (Ok K, mk_world (mk_extractor (file_path (self w)) K) (trace w)).
Proof.
  intros Hopen Hiter HK. rewrite (scan_file_ok fs f) by assumption.
  unfold image_candidates. rewrite HK. reflexivity.
Qed.

Lemma scan_file_counts_candidates_witness :
  scan_file (fs_of nested_file) (fresh "data.h5")
  = (Ok 2, mk_world (mk_extractor "data.h5" 2) []).
Proof.
  apply (scan_file_counts_candidates
           (fs_of nested_file) (mk_file nested_file) (fresh "data.h5") 2);
    reflexivity.
Defined.

(** The extraction of at most [m] images from a file whose nodes load. *)
Lemma _extract_from_file_bounded fs f w path m :
  open_file fs path = Ok f ->
  iter_ok (root_children f) = true ->
  _extract_from_file fs path (Some m) w
  = (Ok (firstn (Z.to_nat m) (all_images f)),
     mk_world (self w)
       (trace w
        ++ flat_map visit_events (visited (candidates_of f) [] (Some m)))).
Proof.
  intros Hopen Hiter. rewrite (_extract_from_file_ok fs f) by assumption.
  unfold scanned. rewrite take_images_fst, take_images_snd.
  simpl. rewrite len_nil, Z.sub_0_r. reflexivity.
Qed.

Lemma _extract_from_file_readable fs f w path m :
  open_file fs path = Ok f ->
  iter_ok (root_children f) = true ->
  forallb readable (candidates_of f) = true ->
  _extract_from_file fs path (Some m) w
  = (Ok (firstn (Z.to_nat m) (all_images f)),
     mk_world (self w)
       (trace w ++ read_events (firstn (Z.to_nat m) (candidates_of f)))).
Proof.
  intros Hopen Hiter Hread.
  rewrite (_extract_from_file_bounded fs f) by assumption.
  rewrite visited_all_readable by exact Hread.
  rewrite len_nil, Z.sub_0_r.
  rewrite visit_events_readable by (apply forallb_firstn, Hread).
  reflexivity.
Qed.

Lemma len_all_images f :
  forallb readable (candidates_of f) = true ->
  len (all_images f) = len (candidates_of f).
Proof.
  intros H. unfold len, all_images. rewrite readable_images_length by exact H.
  reflexivity.
Qed.

(** The extraction of [extract_images(n)] from a file that opens and
    whose nodes load, for [n] within the cached count. *)
Lemma extract_images_sound_file fs f w n :
  open_file fs (file_path (self w)) = Ok f ->
  iter_ok (root_children f) = true ->
  1 <= n <= total_images (self w) ->
  extract_images fs (Some n) w
  = stack_or_fallback (firstn (Z.to_nat n) (all_images f))
      (mk_world (self w)
         (trace w
          ++ flat_map visit_events (visited (candidates_of f) [] (Some n)))).
Proof.
  intros Hopen Hiter Hn. rewrite extract_images_in_range by exact Hn.
  unfold bind. rewrite (_extract_from_file_bounded fs f) by assumption.
  reflexivity.
Qed.

(** C2 fails on the code at [columns_file], two readable candidates of
    shapes (4,4) and (4,5): the scan finds 2, and [extract_images(2)]
    reads both arrays, warns, and raises [ValueError] from
    [np.array(images, dtype=object)] where the claim has it return the
    two arrays. *)
Theorem extract_images_columns_file :
  iter_ok columns_file = true
  /\ forallb readable (candidates_of (mk_file columns_file)) = true
  /\ scan_file (fs_of columns_file) (fresh "data.h5")
     = (Ok 2, scanned_world "data.h5" 2)
  /\ extract_images (fs_of columns_file) (Some 2) (scanned_world "data.h5" 2)
     = (Raise (ValueError "could not broadcast input array"),
        mk_world (mk_extractor "data.h5" 2)
          [EvRead "/p"; EvRead "/q"; EvWarn msg_inconsistent]).
Proof. repeat split. Qed.

(** C4, as the code has it.  On a file whose candidates are all
    readable, [scan_file] returns their number [K].  With [K = 0],
    [extract_images] without [n] raises the InvalidState error.  With
    [K >= 1] it resolves [n] to [K], its extracting pass reads the same
    [K] candidates in the same depth-first order and hands the [K]
    arrays to the assembling step; the call returns them stacked, with
    shape [K :: s], when they all have shape [s], and as an object array
    of length [K] when they do not agree on their first dimension. *)
Theorem scan_count_is_extract_count fs f w0 :
  open_file fs (file_path (self w0)) = Ok f ->
  iter_ok (root_children f) = true ->
  forallb readable (candidates_of f) = true ->
  exists w1 w2,
    scan_file fs w0 = (Ok (len (all_images f)), w1)
    /\ len (all_images f) = len (candidates_of f)
    /\ total_images (self w1) = len (all_images f)
    /\ (len (all_images f) = 0 ->
        extract_images fs None w1 = (Raise InvalidState, w1))
    /\ (0 < len (all_images f) ->
        _extract_from_file fs (file_path (self w1))
          (Some (total_images (self w1))) w1
        = (Ok (all_images f), w2)
        /\ trace w2 = trace w1 ++ read_events (candidates_of f)
        /\ extract_images fs None w1 = stack_or_fallback (all_images f) w2
        /\ (forall s,
              (forall a, In a (all_images f) -> nd_shape a = s) ->
              extract_images fs None w1
              = (Ok (Stacked (len (all_images f) :: s)
                       (result_type (all_images f)) (all_images f)), w2))
        /\ (~ same_first_dim (all_images f) ->
            extract_images fs None w1
            = (Ok (ObjectArray [len (all_images f)] (all_images f)),
               mk_world (self w2) (trace w2 ++ [EvWarn msg_inconsistent])))).
Proof.
  intros Hopen Hiter Hread.
  pose proof (len_all_images f Hread) as Hlen.
  exists (mk_world (mk_extractor (file_path (self w0)) (len (all_images f)))
                   (trace w0)).
  exists (mk_world (mk_extractor (file_path (self w0)) (len (all_images f)))
                   (trace w0 ++ read_events (candidates_of f))).
  split; [ | split; [exact Hlen | split; [reflexivity | split]]].
  - rewrite (scan_file_ok fs f) by assumption.
    fold (candidates_of f). rewrite Hlen. reflexivity.
  - intros H0. apply extract_images_no_count. exact H0.
  - intros Hpos. simpl self. simpl trace. simpl total_images. simpl file_path.
    assert (Hc : firstn (Z.to_nat (len (all_images f))) (candidates_of f)
                 = candidates_of f)
      by (rewrite Hlen; apply firstn_len).
    assert (Hx : _extract_from_file fs (file_path (self w0))
                   (Some (len (all_images f)))
                   (mk_world (mk_extractor (file_path (self w0))
                                           (len (all_images f))) (trace w0))
                 = (Ok (all_images f),
                    mk_world (mk_extractor (file_path (self w0))
                                           (len (all_images f)))
                      (trace w0 ++ read_events (candidates_of f)))).
    { rewrite (_extract_from_file_readable fs f) by assumption.
      rewrite firstn_len, Hc. reflexivity. }
    assert (E : extract_images fs None
                  (mk_world (mk_extractor (file_path (self w0))
                                          (len (all_images f))) (trace w0))
                = stack_or_fallback (all_images f)
                    (mk_world (mk_extractor (file_path (self w0))
                                            (len (all_images f)))
                              (trace w0 ++ read_events (candidates_of f)))).
    { change (extract_images fs None ?w)
        with (extract_images fs (Some (total_images (self w))) w).
      simpl total_images.
      rewrite extract_images_in_range by (simpl; lia).
      unfold bind. simpl file_path. rewrite Hx. reflexivity. }
    split; [exact Hx | ]. split; [reflexivity | ]. split; [exact E | ]. split.
    + intros s Hs. rewrite E. apply stack_or_fallback_same_shape.
      * intros Hnil. rewrite Hnil in Hpos. unfold len in Hpos.
        simpl in Hpos. lia.
      * exact Hs.
    + intros Hd. rewrite E. apply stack_or_fallback_first_dim, Hd.
Qed.

Lemma scan_count_is_extract_count_witness :
  exists w1 w2,
    scan_file (fs_of nested_file) (fresh "data.h5")
    = (Ok (len (all_images (mk_file nested_file))), w1)
    /\ len (all_images (mk_file nested_file))
       = len (candidates_of (mk_file nested_file))
    /\ total_images (self w1) = len (all_images (mk_file nested_file))
    /\ (len (all_images (mk_file nested_file)) = 0 ->
        extract_images (fs_of nested_file) None w1 = (Raise InvalidState, w1))
    /\ (0 < len (all_images (mk_file nested_file)) ->
        _extract_from_file (fs_of nested_file) (file_path (self w1))
          (Some (total_images (self w1))) w1
        = (Ok (all_images (mk_file nested_file)), w2)
        /\ trace w2
           = trace w1 ++ read_events (candidates_of (mk_file nested_file))
        /\ extract_images (fs_of nested_file) None w1
           = stack_or_fallback (all_images (mk_file nested_file)) w2
        /\ (forall s,
              (forall a, In a (all_images (mk_file nested_file)) ->
                         nd_shape a = s) ->
              extract_images (fs_of nested_file) None w1
              = (Ok (Stacked (len (all_images (mk_file nested_file)) :: s)
                       (result_type (all_images (mk_file nested_file)))
                       (all_images (mk_file nested_file))), w2))
        /\ (~ same_first_dim (all_images (mk_file nested_file)) ->
            extract_images (fs_of nested_file) None w1
            = (Ok (ObjectArray [len (all_images (mk_file nested_file))]
                     (all_images (mk_file nested_file))),
               mk_world (self w2) (trace w2 ++ [EvWarn msg_inconsistent])))).
Proof.
  apply (scan_count_is_extract_count (fs_of nested_file) (mk_file nested_file)
           (fresh "data.h5"));
    reflexivity.
Defined.

(** C4 as stated fails: on [flat_file], which has no candidate, the scan
    returns 0 and [extract_images] without [n] returns no array but
    raises the InvalidState error. *)
Lemma extract_images_without_candidates :
  forallb readable (candidates_of (mk_file flat_file)) = true
  /\ scan_file (fs_of flat_file) (fresh "data.h5")
     = (Ok 0, fresh "data.h5")
  /\ extract_images (fs_of flat_file) None (fresh "data.h5")
     = (Raise InvalidState, fresh "data.h5").
Proof. repeat split. Qed.

Lemma warning_of_visited l a e :
  In a l -> stored a = Raise e ->
  In (EvWarn (msg_could_not_read a e)) (flat_map visit_events l).
Proof.
  intros Hin Hst. apply in_flat_map. exists a. split; [exact Hin | ].
  unfold visit_events. rewrite Hst. simpl. auto.
Qed.

Lemma unreadable_exists cands :
  len (readable_images cands) < len cands ->
  exists a e, In a cands /\ stored a = Raise e.
Proof.
  induction cands as [ | a cands IH]; intros H.
  - unfold len in H. simpl in H. lia.
  - destruct (stored a) as [buf | e] eqn:E.
    + destruct IH as (b & e & Hin & Hst).
      * unfold readable_images in H. simpl in H.
        fold (readable_images cands) in H.
        rewrite len_app, len_cons in H. unfold image_of in H.
        rewrite E in H. rewrite len_cons, len_nil in H. lia.
      * exists b, e. split; [right; exact Hin | exact Hst].
    + exists a, e. split; [left; reflexivity | exact E].
Qed.

(** C5 fails on the code at [columns_damaged_file]: candidates [/a] of
    shape (4,4), [/y] unreadable, [/b] of shape (4,5).  The scan finds 3
    and two candidates are readable; [extract_images(2)] passes over
    [/y] with a warning, reads the two others, and then raises
    [ValueError] from [np.array(images, dtype=object)] where the claim
    has it return the two arrays. *)
Theorem extract_images_columns_damaged_file :
  iter_ok columns_damaged_file = true
  /\ len (all_images (mk_file columns_damaged_file)) = 2
  /\ scan_file (fs_of columns_damaged_file) (fresh "data.h5")
     = (Ok 3, scanned_world "data.h5" 3)
  /\ extract_images (fs_of columns_damaged_file) (Some 2)
       (scanned_world "data.h5" 3)
     = (Raise (ValueError "could not broadcast input array"),
        mk_world (mk_extractor "data.h5" 3)
          [EvRead "/a"; EvRead "/y";
           EvWarn (msg_could_not_read
                     (mk_array "/y" [4; 4] uint8 (Raise hdf5_error))
                     hdf5_error);
           EvRead "/b"; EvWarn msg_inconsistent]).
Proof. repeat split. Qed.

(** A file with an unreadable candidate: both readable arrays are returned, the
    unreadable one is passed over with its warning. *)
Example extract_images_damaged_file :
  extract_images (fs_of damaged_file) (Some 3) (scanned_world "d.h5" 3)
  = (Ok (Stacked [2; 2; 2] uint8
           [mk_ndarray [2; 2] uint8 [1; 2; 3; 4];
            mk_ndarray [2; 2] uint8 [5; 6; 7; 8]]),
     mk_world (mk_extractor "d.h5" 3)
       [EvRead "/x"; EvRead "/y";
        EvWarn "Could not read dataset '/y': Problems reading the array data.";
        EvRead "/z"]).
Proof. reflexivity. Qed.

Example extract_images_damaged_file_two :
  extract_images (fs_of damaged_file) (Some 2) (scanned_world "d.h5" 3)
  = (Ok (Stacked [2; 2; 2] uint8
           [mk_ndarray [2; 2] uint8 [1; 2; 3; 4];
            mk_ndarray [2; 2] uint8 [5; 6; 7; 8]]),
     mk_world (mk_extractor "d.h5" 3)
       [EvRead "/x"; EvRead "/y";
        EvWarn "Could not read dataset '/y': Problems reading the array data.";
        EvRead "/z"]).
Proof. reflexivity. Qed.

(** ** The checks of [extract_images] *)

Lemma new_extractor_total fs path tr w :
  new_extractor fs path tr = Ok w ->
  total_images (self w) = 0 /\ file_path (self w) = Path path.
Proof.
  unfold new_extractor, __init__, bind, set_file_path, get_file_path,
    set_total_images, raise, warn, emit, ret.
  simpl.
  destruct (path_exists fs (Path path)); simpl; [ | discriminate].
  destruct (path_is_file fs (Path path)); simpl; [ | discriminate].
  destruct (negb (String.eqb (lower (path_suffix (Path path))) ".h5")); simpl;
    intros H; inversion H; subst; simpl; auto.
Qed.

(** C6. [extract_images] called on a new extractor, before any scan, or
    after a scan that found no image, raises the InvalidState error
    whatever its argument: both cases are told by the cached count
    being 0. *)
Theorem extract_images_before_scan fs path tr w0 w n :
  new_extractor fs path tr = Ok w \/ scan_file fs w0 = (Ok 0, w) ->
  extract_images fs n w = (Raise InvalidState, w).
Proof.
  intros [Hnew | Hscan]; apply extract_images_no_count.
  - apply (new_extractor_total fs path tr w Hnew).
  - apply scan_file_returns_cached in Hscan. destruct Hscan as [H _].
    inversion H. reflexivity.
Qed.

Lemma extract_images_before_scan_witness :
  extract_images (fs_of nested_file) (Some 1) (fresh "data.h5")
  = (Raise InvalidState, fresh "data.h5").
Proof.
  apply (extract_images_before_scan (fs_of nested_file) "data.h5" []
           (fresh "data.h5") (fresh "data.h5") (Some 1)).
  left. reflexivity.
Defined.

(** A scan that finds nothing, then an extraction. *)
Example extract_images_after_empty_scan :
  (scan_file (fs_of (Yield (ok_array "/c" [5] uint16 [5]) StopIteration)) ;;;
   extract_images (fs_of (Yield (ok_array "/c" [5] uint16 [5]) StopIteration))
                  None) (fresh "data.h5")
  = (Raise InvalidState, fresh "data.h5").
Proof. reflexivity. Qed.

(** C7. After a scan that found [K >= 1] images, [extract_images(n)]
    raises the InvalidArgument error for [n <= 0] and the OutOfRange
    error for [n > K]; for [1 <= n <= K] it raises neither and goes on to
    extract and assemble. *)
Theorem extract_images_argument_checks fs w0 K w n :
  scan_file fs w0 = (Ok K, w) ->
  1 <= K ->
  (n <= 0 -> extract_images fs (Some n) w = (Raise InvalidArgument, w))
  /\ (K < n -> extract_images fs (Some n) w = (Raise (OutOfRange n K), w))
  /\ (1 <= n <= K ->
      extract_images fs (Some n) w
      = (images <- _extract_from_file fs (file_path (self w)) (Some n) ;;
         stack_or_fallback images) w).
Proof.
  intros Hscan HK.
  apply scan_file_returns_cached in Hscan. destruct Hscan as [Htot _].
  inversion Htot as [Htot']. clear Htot. subst K.
  split; [ | split].
  - intros Hn. unfold extract_images, bind, get_total_images.
    destruct (total_images (self w) =? 0) eqn:E0;
      [apply Z.eqb_eq in E0; lia | ].
    destruct (n >? total_images (self w)) eqn:E1;
      [apply Z.gtb_lt in E1; lia | ].
    destruct (n <=? 0) eqn:E2; [reflexivity | apply Z.leb_gt in E2; lia].
  - intros Hn. unfold extract_images, bind, get_total_images.
    destruct (total_images (self w) =? 0) eqn:E0;
      [apply Z.eqb_eq in E0; lia | ].
    destruct (n >? total_images (self w)) eqn:E1; [reflexivity | ].
    rewrite Z.gtb_ltb in E1. apply Z.ltb_ge in E1. lia.
  - intros Hn. apply extract_images_in_range. lia.
Qed.

Lemma extract_images_argument_checks_witness :
  (3 <= 0 ->
   extract_images (fs_of nested_file) (Some 3) (scanned_world "data.h5" 2)
   = (Raise InvalidArgument, scanned_world "data.h5" 2))
  /\ (2 < 3 ->
      extract_images (fs_of nested_file) (Some 3) (scanned_world "data.h5" 2)
      = (Raise (OutOfRange 3 2), scanned_world "data.h5" 2))
  /\ (1 <= 3 <= 2 ->
      extract_images (fs_of nested_file) (Some 3) (scanned_world "data.h5" 2)
      = (images <- _extract_from_file (fs_of nested_file)
                     (file_path (self (scanned_world "data.h5" 2))) (Some 3) ;;
         stack_or_fallback images) (scanned_world "data.h5" 2)).
Proof.
  apply (extract_images_argument_checks (fs_of nested_file)
           (fresh "data.h5") 2 (scanned_world "data.h5" 2) 3);
    [reflexivity | lia].
Defined.

Example extract_images_zero :
  extract_images (fs_of nested_file) (Some 0) (scanned_world "data.h5" 2)
  = (Raise (ValueError "Number of images must be positive"),
     scanned_world "data.h5" 2).
Proof. reflexivity. Qed.

Example extract_images_one_too_many :
  extract_images (fs_of nested_file) (Some 3) (scanned_world "data.h5" 2)
  = (Raise (ValueError "Requested 3 images but only 2 available"),
     scanned_world "data.h5" 2).
Proof. reflexivity. Qed.

(** C10. With the cached count at 0, [extract_images] raises the
    InvalidState error for every argument, [n <= 0] and [n] omitted
    included: that check comes first, and the error is neither the
    InvalidArgument nor an OutOfRange error. *)
Theorem InvalidState_comes_first fs n w :
  total_images (self w) = 0 ->
  extract_images fs n w = (Raise InvalidState, w)
  /\ InvalidState <> InvalidArgument
  /\ (forall m t, InvalidState <> OutOfRange m t).
Proof.
  intros H. split; [apply extract_images_no_count, H | ].
  split; [discriminate | ]. intros m t. discriminate.
Qed.

Lemma InvalidState_comes_first_witness :
  extract_images (fs_of nested_file) (Some 0) (fresh "data.h5")
  = (Raise InvalidState, fresh "data.h5")
  /\ InvalidState <> InvalidArgument
  /\ (forall m t, InvalidState <> OutOfRange m t).
Proof.
  apply (InvalidState_comes_first (fs_of nested_file) (Some 0)
           (fresh "data.h5")).
  reflexivity.
Defined.

(** A scan that fails caches 0 as well. *)
Lemma failed_scan_caches_zero fs w e w' :
  _count_images_in_file fs (file_path (self w)) w = (Raise e, w') ->
  scan_file fs w
  = (Ok 0,
     mk_world (mk_extractor (file_path (self w)) 0)
              (trace w ++ [EvWarn (msg_error_reading (file_path (self w)) e)])).
Proof.
  intros H. rewrite scan_file_cases, H.
  assert (Hw : w' = w).
  { pose proof count_loop_pure as [Hn _].
    unfold _count_images_in_file, bind, lift in H.
    destruct (open_file fs (file_path (self w))) as [f | e0].
    - specialize (Hn (root f) 0 w).
      destruct (_recursive_count_arrays (root f) 0 w) as [[c | e1] w1];
        simpl in Hn; inversion H; subst; reflexivity.
    - inversion H; reflexivity. }
  subst w'. reflexivity.
Qed.

(** ** The frame of [extract_images] *)

Lemma extract_loop_self :
  (forall n images mc w,
     self (snd (_recursive_extract_arrays n images mc w)) = self w)
  /\ (forall it images mc w,
        self (snd (extract_loop it images mc w)) = self w).
Proof.
  apply node_mutind.
  - intros a images mc w. simpl. destruct (reached images mc); reflexivity.
  - intros p it IH images mc w. simpl.
    destruct (reached images mc); [reflexivity | apply IH].
  - intros p images mc w. simpl. destruct (reached images mc); reflexivity.
  - reflexivity.
  - intros child IHc rest IHr images mc w.
    destruct (reached images mc) eqn:R.
    + simpl. rewrite R. reflexivity.
    + destruct child as [a | p it | p].
      * simpl. rewrite R. destruct (2 <=? len (shape a)).
        -- unfold bind at 1. rewrite visit_array. rewrite IHr. reflexivity.
        -- apply IHr.
      * change (extract_loop (Yield (Group p it) rest) images mc w)
          with ((if reached images mc then ret images
                 else bind (_recursive_extract_arrays (Group p it) images mc)
                           (fun im => extract_loop rest im mc)) w).
        rewrite R. unfold bind. specialize (IHc images mc w).
        destruct (_recursive_extract_arrays (Group p it) images mc w)
          as [[im | e] w1]; simpl in IHc.
        -- rewrite IHr. exact IHc.
        -- exact IHc.
      * simpl. rewrite R. apply IHr.
  - reflexivity.
Qed.

Lemma _extract_from_file_self fs path mc w :
  self (snd (_extract_from_file fs path mc w)) = self w.
Proof.
  unfold _extract_from_file, bind, lift.
  destruct (open_file fs path) as [f | e]; [ | reflexivity].
  apply extract_loop_self.
Qed.

Lemma stack_or_fallback_self images w :
  self (snd (stack_or_fallback images w)) = self w.
Proof.
  unfold stack_or_fallback, try_except_ValueError, try_except, lift, bind,
    warn, emit, raise.
  destruct (np_array images false) as [v | e]; [reflexivity | ].
  destruct (is_ValueError e); [ | reflexivity].
  simpl. destruct (np_array images true); reflexivity.
Qed.

(** C9. [extract_images] leaves the extractor as it was: whatever the
    argument and the file, whether it returns or raises, [total_images]
    and [file_path] are the same after the call as before. *)
Theorem extract_images_keeps_self fs n w :
  self (snd (extract_images fs n w)) = self w
  /\ total_images (self (snd (extract_images fs n w))) = total_images (self w)
  /\ file_path (self (snd (extract_images fs n w))) = file_path (self w).
Proof.
  assert (H : self (snd (extract_images fs n w)) = self w).
  { unfold extract_images, bind at 1, get_total_images.
    destruct (total_images (self w) =? 0); [reflexivity | ].
    destruct (_ >? _); [reflexivity | ].
    destruct (_ <=? 0); [reflexivity | ].
    unfold bind, get_file_path.
    match goal with
    | |- context [_extract_from_file fs ?p ?mc w] =>
        pose proof (_extract_from_file_self fs p mc w) as He;
        destruct (_extract_from_file fs p mc w) as [[im | e] w1]
    end; simpl in He.
    - rewrite stack_or_fallback_self. exact He.
    - exact He. }
  rewrite H. auto.
Qed.

(** ** The claims on assembling and on failures *)

(** C3, as the code has it.  The assembling step returns one stacked
    array exactly when all the arrays have the same shape; their element
    types need not agree, the stacked array takes the promoted type.
    With all [K] arrays of shape [s] the result has shape [K :: s].  When
    two shapes differ a warning is emitted; and when the arrays do not
    even agree on their first dimension, the result is an object array of
    length [K] that holds the arrays as they were. *)
Theorem stack_or_fallback_policy images w :
  ((exists sh dt planes w',
      stack_or_fallback images w = (Ok (Stacked sh dt planes), w'))
   <-> same_shapes images)
  /\ (forall s,
        images <> [] ->
        (forall a, In a images -> nd_shape a = s) ->
        stack_or_fallback images w
        = (Ok (Stacked (len images :: s) (result_type images) images), w))
  /\ (~ same_shapes images ->
      snd (stack_or_fallback images w)
      = mk_world (self w) (trace w ++ [EvWarn msg_inconsistent]))
  /\ (~ same_first_dim images ->
      stack_or_fallback images w
      = (Ok (ObjectArray [len images] images),
         mk_world (self w) (trace w ++ [EvWarn msg_inconsistent]))).
Proof.
  split; [ | split; [ | split]].
  - split.
    + intros (sh & dt & planes & w' & H). apply ragged_false_iff.
      destruct (ragged images) eqn:R; [ | reflexivity].
      rewrite stack_or_fallback_ragged in H by exact R.
      unfold np_array in H. simpl in H. rewrite R in H.
      destruct (discovered_dims images); [discriminate | ].
      destruct (forallb _ images); discriminate.
    + intros H. apply ragged_false_iff in H.
      do 4 eexists. apply stack_or_fallback_uniform, H.
  - intros s Hne Hs. apply stack_or_fallback_same_shape; assumption.
  - intros H. apply ragged_true_iff in H.
    rewrite stack_or_fallback_ragged by exact H. reflexivity.
  - intros H.
    assert (R : ragged images = true).
    { apply ragged_true_iff. intros Hs. apply H.
      apply same_shapes_first_dim, Hs. }
    rewrite stack_or_fallback_ragged by exact R.
    unfold np_array. simpl. rewrite R.
    rewrite discovered_dims_first_dim by exact H. reflexivity.
Qed.

Lemma stack_or_fallback_policy_witness :
  stack_or_fallback two_squares (scanned_world "data.h5" 2)
  = (Ok (Stacked [2; 10; 10] uint16 two_squares), scanned_world "data.h5" 2)
  /\ stack_or_fallback ragged_rows (scanned_world "data.h5" 2)
     = (Ok (ObjectArray [2] ragged_rows),
        mk_world (mk_extractor "data.h5" 2) [EvWarn msg_inconsistent]).
Proof.
  split.
  - apply (proj1 (proj2 (stack_or_fallback_policy two_squares
                           (scanned_world "data.h5" 2))) [10; 10]).
    + discriminate.
    + intros a [<- | [<- | []]]; reflexivity.
  - apply (proj2 (proj2 (proj2 (stack_or_fallback_policy ragged_rows
                                  (scanned_world "data.h5" 2))))).
    intros H.
    specialize (H (mk_ndarray [4; 4] uint8 (repeat 0 16))
                  (mk_ndarray [5; 4] uint8 (repeat 0 20))).
    simpl in H. assert (E : Some 4 = Some 5) by (apply H; auto).
    discriminate E.
Defined.

(** C3 as stated fails: two arrays of one shape and different element
    types are stacked, with no warning. *)
Lemma stacking_ignores_element_type :
  stack_or_fallback mixed_types (scanned_world "data.h5" 2)
  = (Ok (Stacked [2; 2; 2] float64 mixed_types), scanned_world "data.h5" 2)
  /\ ~ same_dtypes mixed_types.
Proof.
  split; [reflexivity | ].
  intros H.
  specialize (H (mk_ndarray [2; 2] int32 [1; 2; 3; 4])
                (mk_ndarray [2; 2] float64 [5; 6; 7; 8])).
  simpl in H. assert (E : int32 = float64) by (apply H; auto).
  discriminate E.
Qed.

(** Shapes (4,4) and (4,5): the fallback itself raises, outside the
    [try], and the call fails. *)
Example stack_or_fallback_ragged_columns :
  stack_or_fallback ragged_columns (scanned_world "data.h5" 2)
  = (Raise (ValueError "could not broadcast input array"),
     mk_world (mk_extractor "data.h5" 2) [EvWarn msg_inconsistent]).
Proof. reflexivity. Qed.

(** The file of the first example scenario: two stacked images. *)
Example extract_images_nested_file :
  (scan_file (fs_of nested_file) ;;;
   extract_images (fs_of nested_file) (Some 2)) (fresh "data.h5")
  = (Ok (Stacked [2; 10; 10] uint16 two_squares),
     mk_world (mk_extractor "data.h5" 2)
              [EvRead "/a/img"; EvRead "/a/b/img"]).
Proof. reflexivity. Qed.

(** C8, as the code has it.  In the extracting pass over nodes that all
    load, a candidate that cannot be read is passed over with a warning
    and the pass goes on with the nodes that follow: the pass returns the
    readable candidates it has room for.  The counting pass reads no
    dataset and warns about nothing, so it counts an unreadable candidate
    like any other.  A failure raised inside the counting pass is not
    recovered node by node: [scan_file] catches it, warns once, resets
    the cached count to 0 and returns 0. *)
Theorem read_failure_policy :
  (forall it images mc w,
     iter_ok it = true ->
     extract_loop it images mc w
     = (Ok (images
            ++ firstn (room images mc
                         (List.length (readable_images (image_candidates it))))
                      (readable_images (image_candidates it))),
        mk_world (self w)
          (trace w
           ++ flat_map visit_events (visited (image_candidates it) images mc))))
  /\ (forall it count w, snd (count_loop it count w) = w)
  /\ (forall it count w,
        iter_ok it = true ->
        count_loop it count w = (Ok (count + len (image_candidates it)), w))
  /\ (forall fs w e w',
        _count_images_in_file fs (file_path (self w)) w = (Raise e, w') ->
        scan_file fs w
        = (Ok 0,
           mk_world (mk_extractor (file_path (self w)) 0)
             (trace w
              ++ [EvWarn (msg_error_reading (file_path (self w)) e)]))).
Proof.
  split; [ | split; [ | split]].
  - intros it images mc w H.
    destruct extract_loop_take_images as [_ Hl]. rewrite Hl by exact H.
    unfold scanned. rewrite take_images_fst, take_images_snd. reflexivity.
  - apply count_loop_pure.
  - apply count_loop_candidates.
  - apply failed_scan_caches_zero.
Qed.

Lemma read_failure_policy_witness :
  extract_loop damaged_file [] (Some 3) (scanned_world "d.h5" 3)
  = (Ok ([] ++ firstn (room [] (Some 3)
                         (List.length
                            (readable_images (image_candidates damaged_file))))
                      (readable_images (image_candidates damaged_file))),
     mk_world (self (scanned_world "d.h5" 3))
       (trace (scanned_world "d.h5" 3)
        ++ flat_map visit_events
             (visited (image_candidates damaged_file) [] (Some 3))))
  /\ count_loop damaged_file 0 (fresh "d.h5")
     = (Ok (0 + len (image_candidates damaged_file)), fresh "d.h5")
  /\ scan_file (fs_of broken_group_file) (fresh "b.h5")
     = (Ok 0,
        mk_world (mk_extractor (file_path (self (fresh "b.h5"))) 0)
          (trace (fresh "b.h5")
           ++ [EvWarn (msg_error_reading (file_path (self (fresh "b.h5")))
                         hdf5_error)])).
Proof.
  split; [ | split].
  - apply (proj1 read_failure_policy). reflexivity.
  - apply (proj1 (proj2 (proj2 read_failure_policy))). reflexivity.
  - apply (proj2 (proj2 (proj2 read_failure_policy))
             (fs_of broken_group_file) (fresh "b.h5") hdf5_error
             (fresh "b.h5")).
    reflexivity.
Defined.

(** C8 as stated fails: a group whose children cannot be loaded aborts
    the counting pass, the sound array after it is not counted, and the
    scan returns 0; the extracting pass raises on the same group. *)
Lemma broken_group_aborts_traversal :
  image_candidates broken_group_file
  = [mk_array "/img" [2; 2] uint8 (Ok [1; 2; 3; 4])]
  /\ _count_images_in_file (fs_of broken_group_file) "b.h5" (fresh "b.h5")
     = (Raise hdf5_error, fresh "b.h5")
  /\ scan_file (fs_of broken_group_file) (fresh "b.h5")
     = (Ok 0,
        mk_world (mk_extractor "b.h5" 0)
          [EvWarn "Error reading b.h5: Problems reading the array data."])
  /\ _extract_from_file (fs_of broken_group_file) "b.h5" (Some 1)
       (scanned_world "b.h5" 1)
     = (Raise hdf5_error, scanned_world "b.h5" 1)
  /\ extract_images (fs_of broken_group_file) (Some 1) (scanned_world "b.h5" 1)
     = (Raise hdf5_error, scanned_world "b.h5" 1).
Proof. repeat split. Qed.

(** The counting pass counts the unreadable candidate of [damaged_file]
    and says nothing. *)
Example scan_file_damaged_file :
  scan_file (fs_of damaged_file) (fresh "d.h5")
  = (Ok 3, mk_world (mk_extractor "d.h5" 3) []).
Proof. reflexivity. Qed.

(** * Further properties of the module *)

(** ** The counting pass on any hierarchy *)

Lemma first_failure_iter_ok :
  (forall n, first_failure_node n = None <-> iter_ok_node n = true)
  /\ (forall it, first_failure it = None <-> iter_ok it = true).
Proof.
  apply node_mutind; simpl.
  - tauto.
  - intros p it IH. exact IH.
  - tauto.
  - tauto.
  - intros child IHc rest IHr. rewrite andb_true_iff, <- IHc, <- IHr.
    destruct (first_failure_node child); split.
    + discriminate.
    + intros [H _]. discriminate H.
    + auto.
    + tauto.
  - intros e. split; discriminate.
Qed.

Lemma count_loop_any :
  (forall n count w,
     match n with
     | Group _ it =>
         _recursive_count_arrays n count w
         = match first_failure it with
           | Some e => (Raise e, w)
           | None => (Ok (count + len (image_candidates it)), w)
           end
     | _ => True
     end)
  /\
  (forall it count w,
     count_loop it count w
     = match first_failure it with
       | Some e => (Raise e, w)
       | None => (Ok (count + len (image_candidates it)), w)
       end).
Proof.
  apply node_mutind.
  - trivial.
  - intros p it IH count w. simpl. apply IH.
  - trivial.
  - intros count w. simpl. unfold ret, image_candidates. simpl.
    rewrite len_nil, Z.add_0_r. reflexivity.
  - intros child IHc rest IHr count w.
    destruct child as [a | p it | p].
    + rewrite image_candidates_array. simpl. fold (is_image a).
      destruct (is_image a); rewrite IHr; destruct (first_failure rest);
        try reflexivity.
      rewrite len_cons. do 2 f_equal. lia.
    + specialize (IHc count w).
      change (count_loop (Yield (Group p it) rest) count w)
        with (bind (_recursive_count_arrays (Group p it) count)
                   (fun c => count_loop rest c) w).
      unfold bind. rewrite IHc. simpl.
      destruct (first_failure it); [reflexivity | ].
      rewrite IHr. destruct (first_failure rest); [reflexivity | ].
      rewrite image_candidates_group, len_app. do 2 f_equal. lia.
    + rewrite image_candidates_other. simpl. apply IHr.
  - reflexivity.
Qed.

Lemma _count_images_in_file_any fs path w :
  _count_images_in_file fs path w = (count_outcome fs path, w).
Proof.
  unfold _count_images_in_file, count_outcome, bind, lift.
  destruct (open_file fs path) as [f | e]; [ | reflexivity].
  destruct count_loop_any as [Hn _]. specialize (Hn (root f) 0 w).
  simpl in Hn. simpl. rewrite Hn.
  destruct (first_failure (root_children f)); reflexivity.
Qed.

Lemma scan_file_any fs w :
  scan_file fs w
  = (Ok (scan_count fs (file_path (self w))),
     mk_world (mk_extractor (file_path (self w))
                            (scan_count fs (file_path (self w))))
              (trace w ++ scan_events fs (file_path (self w)))).
Proof.
  rewrite scan_file_cases, _count_images_in_file_any.
  unfold scan_count, scan_events.
  destruct (count_outcome fs (file_path (self w))).
  - rewrite app_nil_r. reflexivity.
  - reflexivity.
Qed.

(** X1. [scan_file] never raises and its result is settled by the file
    alone.  It returns the number of image candidates when the file opens
    and every group on the way can be iterated; when opening fails or a
    group fails, it warns with the message of that first failure, and
    caches and returns 0, whatever had been counted up to there.  The
    count that was cached before plays no part. *)
Theorem scan_file_on_any_file fs w :
  (forall f,
     open_file fs (file_path (self w)) = Ok f ->
     first_failure (root_children f) = None ->
     scan_file fs w
     = (Ok (len (candidates_of f)),
        mk_world (mk_extractor (file_path (self w)) (len (candidates_of f)))
                 (trace w)))
  /\ (forall f e,
        open_file fs (file_path (self w)) = Ok f ->
        first_failure (root_children f) = Some e ->
        scan_file fs w
        = (Ok 0,
           mk_world (mk_extractor (file_path (self w)) 0)
             (trace w
              ++ [EvWarn (msg_error_reading (file_path (self w)) e)])))
  /\ (forall e,
        open_file fs (file_path (self w)) = Raise e ->
        scan_file fs w
        = (Ok 0,
           mk_world (mk_extractor (file_path (self w)) 0)
             (trace w
              ++ [EvWarn (msg_error_reading (file_path (self w)) e)]))).
Proof.
  split; [ | split].
  - intros f Hopen Hff. rewrite scan_file_any.
    unfold scan_count, scan_events, count_outcome. rewrite Hopen, Hff.
    rewrite app_nil_r. reflexivity.
  - intros f e Hopen Hff. rewrite scan_file_any.
    unfold scan_count, scan_events, count_outcome. rewrite Hopen, Hff.
    reflexivity.
  - intros e Hopen. rewrite scan_file_any.
    unfold scan_count, scan_events, count_outcome. rewrite Hopen.
    reflexivity.
Qed.

Lemma scan_file_on_any_file_witness :
  scan_file (fs_of broken_group_file) (scanned_world "b.h5" 7)
  = (Ok 0,
     mk_world (mk_extractor "b.h5" 0)
       [EvWarn (msg_error_reading "b.h5" hdf5_error)]).
Proof.
  apply (proj1 (proj2 (scan_file_on_any_file (fs_of broken_group_file)
                         (scanned_world "b.h5" 7)))
           (mk_file broken_group_file) hdf5_error);
    reflexivity.
Defined.

(** X2. Scanning again changes nothing: a second [scan_file] returns
    what the first returned and leaves the same count and path in the
    extractor, whatever the file is like. *)
Theorem scan_file_twice fs w :
  fst ((scan_file fs ;;; scan_file fs) w) = fst (scan_file fs w)
  /\ self (snd ((scan_file fs ;;; scan_file fs) w))
     = self (snd (scan_file fs w)).
Proof.
  unfold bind. rewrite (scan_file_any fs w). simpl.
  rewrite scan_file_any. simpl. split; reflexivity.
Qed.

(** X3. After a scan, [get_summary] reports the path the extractor was
    built on and the very count the scan returned, and changes
    nothing. *)
Theorem get_summary_after_scan fs w :
  exists c w1,
    scan_file fs w = (Ok c, w1)
    /\ get_summary w1 = (Ok (file_path (self w), c), w1).
Proof.
  rewrite scan_file_any. do 2 eexists. split; reflexivity.
Qed.

(** ** Paths *)

Lemma split_slash_nonempty l : split_slash l <> [].
Proof.
  destruct l as [ | c l]; simpl; [discriminate | ].
  destruct (Ascii.eqb c "/"); [discriminate | ].
  destruct (split_slash l); discriminate.
Qed.

Lemma split_slash_app d r :
  split_slash (d ++ "/"%char :: r) = split_slash d ++ split_slash r.
Proof.
  induction d as [ | c d IH]; simpl.
  - reflexivity.
  - destruct (Ascii.eqb c "/").
    + rewrite IH. reflexivity.
    + rewrite IH. pose proof (split_slash_nonempty d) as Hne.
      destruct (split_slash d); [congruence | reflexivity].
Qed.

Lemma split_slash_one name :
  ~ In "/"%char name -> split_slash name = [name].
Proof.
  induction name as [ | c name IH]; simpl; intros H; [reflexivity | ].
  destruct (Ascii.eqb c "/") eqn:E.
  - apply Ascii.eqb_eq in E. subst c. exfalso. apply H. left. reflexivity.
  - rewrite IH; [reflexivity | ]. intros Hin. apply H. right. exact Hin.
Qed.

Lemma split_slash_parts l : Forall (fun x => ~ In "/"%char x) (split_slash l).
Proof.
  induction l as [ | c l IH]; simpl.
  - constructor; [intros [] | constructor].
  - destruct (Ascii.eqb c "/") eqn:E.
    + constructor; [intros [] | exact IH].
    + destruct (split_slash l) as [ | h t]; inversion IH; subst.
      * constructor; [ | constructor]. intros [H | []]. subst c.
        rewrite Ascii.eqb_refl in E. discriminate E.
      * constructor; [ | assumption]. intros [H | H]; [ | contradiction].
        subst c. rewrite Ascii.eqb_refl in E. discriminate E.
Qed.

Lemma join_slash_cons x y rest :
  join_slash (x :: y :: rest) = x ++ "/"%char :: join_slash (y :: rest).
Proof. reflexivity. Qed.

Lemma join_slash_snoc ys name :
  join_slash (ys ++ [name])
  = match ys with
    | [] => name
    | _ :: _ => join_slash ys ++ "/"%char :: name
    end.
Proof.
  induction ys as [ | y ys IH]; [reflexivity | ].
  destruct ys as [ | y2 ys].
  - reflexivity.
  - change ((y :: y2 :: ys) ++ [name]) with (y :: y2 :: (ys ++ [name])).
    rewrite !join_slash_cons.
    change (y2 :: ys ++ [name]) with ((y2 :: ys) ++ [name]).
    rewrite IH, <- app_assoc. reflexivity.
Qed.

Lemma split_join tail :
  tail <> [] ->
  Forall (fun x => ~ In "/"%char x) tail ->
  split_slash (join_slash tail) = tail.
Proof.
  induction tail as [ | x tail IH]; [congruence | ]. intros _ H.
  inversion H as [ | x' t' Hx Ht]; subst.
  destruct tail as [ | y tail].
  - simpl. apply split_slash_one, Hx.
  - rewrite join_slash_cons, split_slash_app, split_slash_one by exact Hx.
    rewrite IH by (discriminate || exact Ht). reflexivity.
Qed.

Lemma filter_kept_twice l : filter kept (filter kept l) = filter kept l.
Proof.
  induction l as [ | x l IH]; simpl; [reflexivity | ].
  destruct (kept x) eqn:E; simpl; [rewrite E, IH | ]; auto.
Qed.

Lemma splitroot_root p : 
  fst (splitroot p) = [] \/ fst (splitroot p) = ["/"%char]
  \/ fst (splitroot p) = ["/"%char; "/"%char].
Proof.
  destruct p as [ | a [ | b [ | c p]]]; simpl; auto;
    repeat match goal with
           | |- context [Ascii.eqb ?x ?y] => destruct (Ascii.eqb x y)
           end; simpl; auto.
Qed.

Lemma splitroot_again rt c r :
  rt = [] \/ rt = ["/"%char] \/ rt = ["/"%char; "/"%char] ->
  c <> "/"%char ->
  splitroot (rt ++ c :: r) = (rt, c :: r).
Proof.
  intros Hrt Hc. apply Ascii.eqb_neq in Hc.
  destruct Hrt as [-> | [-> | ->]]; simpl; rewrite ?Hc; reflexivity.
Qed.

(** Printing a path and reading it again gives the same path. *)
Lemma Path_chars_idem p : Path_chars (Path_chars p) = Path_chars p.
Proof.
  remember (Path_chars p) as q eqn:Eq. unfold Path_chars in Eq.
  pose proof (splitroot_root p) as Hrt.
  pose proof (split_slash_parts (snd (splitroot p))) as Hparts.
  destruct (splitroot p) as [rt rel]. simpl in Hrt, Hparts.
  assert (Hk : filter kept (filter kept (split_slash rel))
               = filter kept (split_slash rel)) by apply filter_kept_twice.
  assert (Hns : Forall (fun x => ~ In "/"%char x)
                  (filter kept (split_slash rel))).
  { apply Forall_forall. intros x Hx. apply filter_In in Hx.
    rewrite Forall_forall in Hparts. apply Hparts, Hx. }
  assert (Hhead : forall x t, filter kept (split_slash rel) = x :: t ->
                              kept x = true).
  { intros x t E. assert (Hin : In x (filter kept (split_slash rel)))
      by (rewrite E; left; reflexivity).
    apply filter_In in Hin. apply Hin. }
  destruct (filter kept (split_slash rel)) as [ | x tail] eqn:Et.
  - destruct Hrt as [-> | [-> | ->]]; subst q; reflexivity.
  - specialize (Hhead x tail eq_refl).
    destruct x as [ | c x]; [discriminate Hhead | ].
    assert (Hc : c <> "/"%char).
    { inversion Hns as [ | ? ? Hx ?]; subst. intros ->. apply Hx. left.
      reflexivity. }
    assert (Hj : exists r, join_slash ((c :: x) :: tail) = c :: r).
    { destruct tail; simpl; eexists; reflexivity. }
    destruct Hj as [r Hj].
    assert (Hout : q = rt ++ join_slash ((c :: x) :: tail))
      by (rewrite Eq; destruct rt; reflexivity).
    rewrite Hout. unfold Path_chars. rewrite Hj.
    rewrite splitroot_again by assumption.
    rewrite <- Hj, split_join by (discriminate || exact Hns).
    rewrite Hk. destruct rt; reflexivity.
Qed.

Lemma Path_idem p : Path (Path p) = Path p.
Proof.
  unfold Path. rewrite list_ascii_of_string_of_list_ascii, Path_chars_idem.
  reflexivity.
Qed.

Lemma splitroot_dir dir name :
  dir = [] \/ (exists d, dir = d ++ ["/"%char]) ->
  ~ In "/"%char name -> name <> [] ->
  exists rt dir',
    splitroot (dir ++ name) = (rt, dir' ++ name)
    /\ (dir' = [] \/ exists d', dir' = d' ++ ["/"%char])
    /\ (rt = [] \/ exists d', rt = d' ++ ["/"%char]).
Proof.
  intros Hdir Hname Hne.
  destruct name as [ | n1 name]; [congruence | ].
  assert (Hn1 : Ascii.eqb n1 "/" = false).
  { apply Ascii.eqb_neq. intros ->. apply Hname. left. reflexivity. }
  destruct Hdir as [-> | [d ->]].
  - exists [], []. simpl. rewrite Hn1. auto.
  - destruct d as [ | a d].
    + exists ["/"%char], []. simpl. rewrite Hn1.
      split; [reflexivity | split; [auto | right; exists []; reflexivity]].
    + destruct (Ascii.eqb a "/") eqn:Ea.
      * apply Ascii.eqb_eq in Ea. subst a. destruct d as [ | b d].
        -- exists ["/"%char; "/"%char], []. simpl. rewrite Hn1.
           split; [reflexivity | split; [auto | ]].
           right. exists ["/"%char]. reflexivity.
        -- destruct (Ascii.eqb b "/") eqn:Eb.
           ++ apply Ascii.eqb_eq in Eb. subst b. destruct d as [ | c d].
              ** exists ["/"%char], ["/"%char; "/"%char]. simpl.
                 split; [reflexivity | split].
                 --- right. exists ["/"%char]. reflexivity.
                 --- right. exists []. reflexivity.
              ** destruct (Ascii.eqb c "/") eqn:Ec.
                 --- exists ["/"%char], (("/"%char :: c :: d) ++ ["/"%char]).
                     simpl. rewrite Ec. rewrite <- app_assoc.
                     split; [reflexivity | split].
                     +++ right. exists ("/"%char :: c :: d). reflexivity.
                     +++ right. exists []. reflexivity.
                 --- exists ["/"%char; "/"%char], ((c :: d) ++ ["/"%char]).
                     simpl. rewrite Ec. rewrite <- app_assoc.
                     split; [reflexivity | split].
                     +++ right. exists (c :: d). reflexivity.
                     +++ right. exists ["/"%char]. reflexivity.
           ++ exists ["/"%char], ((b :: d) ++ ["/"%char]).
              simpl. rewrite Eb. rewrite <- app_assoc.
              split; [reflexivity | split].
              ** right. exists (b :: d). reflexivity.
              ** right. exists []. reflexivity.
      * exists [], ((a :: d) ++ ["/"%char]). simpl. rewrite Ea.
        rewrite <- app_assoc.
        split; [reflexivity | split; [ | auto]].
        right. exists (a :: d). reflexivity.
Qed.

(** The last component of a path stays the last component of its
    printed form. *)
Lemma Path_chars_last dir name :
  dir = [] \/ (exists d, dir = d ++ ["/"%char]) ->
  ~ In "/"%char name -> kept name = true ->
  exists pre,
    (pre = [] \/ exists d, pre = d ++ ["/"%char])
    /\ Path_chars (dir ++ name) = pre ++ name.
Proof.
  intros Hdir Hname Hkept.
  assert (Hne : name <> []) by (intros ->; discriminate Hkept).
  destruct (splitroot_dir dir name Hdir Hname Hne)
    as (rt & dir' & Hsr & Hdir' & Hrt).
  unfold Path_chars. rewrite Hsr.
  assert (Htail : exists ys,
             filter kept (split_slash (dir' ++ name)) = ys ++ [name]).
  { destruct Hdir' as [-> | [d' ->]].
    - exists []. simpl app. rewrite split_slash_one by exact Hname.
      simpl. rewrite Hkept. reflexivity.
    - exists (filter kept (split_slash d')).
      rewrite <- app_assoc. simpl app.
      rewrite split_slash_app, (split_slash_one name) by exact Hname.
      rewrite filter_app. simpl. rewrite Hkept. reflexivity. }
  destruct Htail as [ys ->].
  assert (Hout : match rt, ys ++ [name] with
                 | [], [] => ["."%char]
                 | _, _ => rt ++ join_slash (ys ++ [name])
                 end = rt ++ join_slash (ys ++ [name])).
  { destruct rt; [ | reflexivity].
    destruct (ys ++ [name]) eqn:E; [ | reflexivity].
    destruct ys; discriminate E. }
  rewrite Hout, join_slash_snoc. destruct ys as [ | y ys].
  - exists rt. split; [exact Hrt | reflexivity].
  - exists (rt ++ join_slash (y :: ys) ++ ["/"%char]). split.
    + right. exists (rt ++ join_slash (y :: ys)).
      rewrite app_assoc. reflexivity.
    + rewrite <- !app_assoc. reflexivity.
Qed.

(** ** The constructor *)

Lemma __init___cases fs path w :
  __init__ fs path w
  = if negb (path_exists fs (Path path)) then
      (Raise (FileNotFoundError ("File does not exist: " ++ path)%string),
       mk_world (mk_extractor (Path path) (total_images (self w))) (trace w))
    else if negb (path_is_file fs (Path path)) then
      (Raise (ValueError
                ("Path must be a file, not a directory: " ++ path)%string),
       mk_world (mk_extractor (Path path) (total_images (self w))) (trace w))
    else
      (Ok tt,
       mk_world (mk_extractor (Path path) 0)
                (trace w ++ init_events (Path path))).
Proof.
  unfold __init__, bind, set_file_path, get_file_path, set_total_images,
    raise, warn, emit, ret, init_events.
  simpl.
  destruct (path_exists fs (Path path)); simpl; [ | reflexivity].
  destruct (path_is_file fs (Path path)); simpl; [ | reflexivity].
  destruct (negb (String.eqb (lower (path_suffix (Path path))) ".h5")); simpl.
  - reflexivity.
  - rewrite app_nil_r. reflexivity.
Qed.

(** X4. The constructor gives an extractor exactly when the path, as
    [Path] prints it, exists and is a regular file; the extractor then
    holds that printed path and a count of 0.  A missing path raises
    [FileNotFoundError], and this comes before the test for a regular
    file; a path that exists and is not a regular file raises
    [ValueError]; both messages show the argument as it was given. *)
Theorem new_extractor_contract fs path tr :
  ((exists w, new_extractor fs path tr = Ok w)
   <-> path_exists fs (Path path) = true
       /\ path_is_file fs (Path path) = true)
  /\ (forall w,
        new_extractor fs path tr = Ok w ->
        self w = mk_extractor (Path path) 0
        /\ trace w = tr ++ init_events (Path path))
  /\ (path_exists fs (Path path) = false ->
      new_extractor fs path tr
      = Raise (FileNotFoundError ("File does not exist: " ++ path)%string))
  /\ (path_exists fs (Path path) = true ->
      path_is_file fs (Path path) = false ->
      new_extractor fs path tr
      = Raise (ValueError
                 ("Path must be a file, not a directory: " ++ path)%string)).
Proof.
  unfold new_extractor. rewrite __init___cases. simpl.
  destruct (path_exists fs (Path path)), (path_is_file fs (Path path)); simpl;
    (split; [ | split; [ | split]]);
    try (intros; discriminate); try reflexivity;
    try (split; [intros [w H]; discriminate H | intros [H1 H2]; discriminate]).
  - split; [auto | intros _; eexists; reflexivity].
  - intros w H. inversion H. simpl. auto.
Qed.

Lemma new_extractor_contract_witness :
  self (mk_world (mk_extractor "scan.dat" 0)
          [EvWarn "File doesn't have .h5 extension: scan.dat"])
  = mk_extractor (Path "./scan.dat") 0
  /\ trace (mk_world (mk_extractor "scan.dat" 0)
              [EvWarn "File doesn't have .h5 extension: scan.dat"])
     = [] ++ init_events (Path "./scan.dat").
Proof.
  apply (proj1 (proj2 (new_extractor_contract (fs_of nested_file)
                         "./scan.dat" []))).
  reflexivity.
Defined.

Lemma take_until_all c l : ~ In c l -> take_until c l = l.
Proof.
  induction l as [ | x l IH]; simpl; intros H; [reflexivity | ].
  destruct (Ascii.eqb x c) eqn:E.
  - apply Ascii.eqb_eq in E. subst x. exfalso. apply H. left. reflexivity.
  - f_equal. apply IH. intros Hin. apply H. right. exact Hin.
Qed.

Lemma take_until_stop c l r : ~ In c l -> take_until c (l ++ c :: r) = l.
Proof.
  induction l as [ | x l IH]; simpl; intros H.
  - rewrite Ascii.eqb_refl. reflexivity.
  - destruct (Ascii.eqb x c) eqn:E.
    + apply Ascii.eqb_eq in E. subst x. exfalso. apply H. left. reflexivity.
    + f_equal. apply IH. intros Hin. apply H. right. exact Hin.
Qed.

(** The directory part of a path: nothing, or text that ends in a
    slash. *)
Lemma path_name_split dir name :
  dir = [] \/ (exists d, dir = d ++ ["/"%char]) ->
  ~ In "/"%char name ->
  path_name (string_of_list_ascii (dir ++ name)) = string_of_list_ascii name.
Proof.
  intros Hdir Hname. unfold path_name.
  rewrite list_ascii_of_string_of_list_ascii, rev_app_distr.
  assert (Hrev : ~ In "/"%char (rev name))
    by (intros H; apply Hname, in_rev, H).
  destruct Hdir as [-> | [d ->]].
  - simpl. rewrite app_nil_r, take_until_all by exact Hrev.
    rewrite rev_involutive. reflexivity.
  - rewrite rev_app_distr. simpl.
    rewrite take_until_stop by exact Hrev.
    rewrite rev_involutive. reflexivity.
Qed.

Lemma path_suffix_split dir stem ext :
  dir = [] \/ (exists d, dir = d ++ ["/"%char]) ->
  ~ In "/"%char (stem ++ "."%char :: ext) ->
  stem <> [] -> ext <> [] -> ~ In "."%char ext ->
  path_suffix (string_of_list_ascii (dir ++ stem ++ "."%char :: ext))
  = string_of_list_ascii ("."%char :: ext).
Proof.
  intros Hdir Hslash Hstem Hext Hdot. unfold path_suffix.
  rewrite path_name_split by assumption.
  rewrite list_ascii_of_string_of_list_ascii.
  rewrite rev_app_distr. simpl rev. rewrite <- app_assoc. simpl app.
  assert (Hrev : ~ In "."%char (rev ext))
    by (intros H; apply Hdot, in_rev, H).
  rewrite take_until_stop by exact Hrev. rewrite rev_involutive.
  rewrite len_app, len_cons.
  assert (0 < len stem).
  { destruct stem; [congruence | ]. rewrite len_cons.
    pose proof (len_nonneg stem). lia. }
  assert (0 < len ext).
  { destruct ext; [congruence | ]. rewrite len_cons.
    pose proof (len_nonneg ext). lia. }
  replace (len stem + (1 + len ext) - len ext - 1) with (len stem) by lia.
  destruct (0 <? len stem) eqn:E1; [ | apply Z.ltb_ge in E1; lia].
  destruct (len stem <? len stem + (1 + len ext) - 1) eqn:E2;
    [ | apply Z.ltb_ge in E2; lia].
  reflexivity.
Qed.

Lemma kept_stem_ext stem ext :
  stem <> [] -> ext <> [] -> kept (stem ++ "."%char :: ext) = true.
Proof.
  intros Hs He. destruct stem as [ | a stem]; [congruence | ].
  destruct ext as [ | b ext]; [congruence | ].
  destruct stem; reflexivity.
Qed.

Lemma Path_suffix dir stem ext :
  dir = [] \/ (exists d, dir = d ++ ["/"%char]) ->
  ~ In "/"%char (stem ++ "."%char :: ext) ->
  stem <> [] -> ext <> [] -> ~ In "."%char ext ->
  path_suffix (Path (string_of_list_ascii (dir ++ stem ++ "."%char :: ext)))
  = string_of_list_ascii ("."%char :: ext).
Proof.
  intros Hdir Hslash Hstem Hext Hdot. unfold Path.
  rewrite list_ascii_of_string_of_list_ascii.
  destruct (Path_chars_last dir (stem ++ "."%char :: ext) Hdir Hslash
              (kept_stem_ext stem ext Hstem Hext)) as (pre & Hpre & ->).
  apply path_suffix_split; assumption.
Qed.

(** X5. For a path whose last component is [stem.ext], with a stem that
    is not empty and an extension without a dot, the constructor warns
    exactly when the extension, in lower case, is not [h5]: [img.h5] and
    [img.H5] pass in silence, in whatever directory.  The warning shows
    the path as [Path] prints it. *)
Theorem extension_warning fs dir stem ext tr :
  dir = [] \/ (exists d, dir = d ++ ["/"%char]) ->
  ~ In "/"%char (stem ++ "."%char :: ext) ->
  stem <> [] -> ext <> [] -> ~ In "."%char ext ->
  path_exists fs
    (Path (string_of_list_ascii (dir ++ stem ++ "."%char :: ext))) = true ->
  path_is_file fs
    (Path (string_of_list_ascii (dir ++ stem ++ "."%char :: ext))) = true ->
  (map lower_ascii ext = ["h"%char; "5"%char] ->
   new_extractor fs (string_of_list_ascii (dir ++ stem ++ "."%char :: ext)) tr
   = Ok (mk_world
           (mk_extractor
              (Path (string_of_list_ascii (dir ++ stem ++ "."%char :: ext)))
              0)
           tr))
  /\ (map lower_ascii ext <> ["h"%char; "5"%char] ->
      new_extractor fs
        (string_of_list_ascii (dir ++ stem ++ "."%char :: ext)) tr
      = Ok (mk_world
              (mk_extractor
                 (Path (string_of_list_ascii
                          (dir ++ stem ++ "."%char :: ext))) 0)
              (tr ++ [EvWarn
                        ("File doesn't have .h5 extension: "
                         ++ Path (string_of_list_ascii
                                    (dir ++ stem ++ "."%char :: ext)))%string]))).
Proof.
  intros Hdir Hslash Hstem Hext Hdot Hex Hfile.
  unfold new_extractor. rewrite __init___cases, Hex, Hfile. simpl.
  unfold init_events. rewrite Path_suffix by assumption.
  unfold lower. rewrite list_ascii_of_string_of_list_ascii. simpl map.
  change (lower_ascii ".") with "."%char.
  split; intros H.
  - rewrite H. simpl. rewrite app_nil_r. reflexivity.
  - destruct (String.eqb
                (string_of_list_ascii ("."%char :: map lower_ascii ext))
                ".h5") eqn:E; [ | reflexivity].
    exfalso. apply H. apply String.eqb_eq in E.
    apply (f_equal list_ascii_of_string) in E.
    rewrite list_ascii_of_string_of_list_ascii in E. simpl in E.
    inversion E. reflexivity.
Qed.

Lemma extension_warning_witness :
  new_extractor (fs_of nested_file) "./run//img.H5" []
  = Ok (mk_world (mk_extractor "run/img.H5" 0) []).
Proof.
  apply (proj1 (extension_warning (fs_of nested_file)
                  (list_ascii_of_string "./run//")
                  (list_ascii_of_string "img")
                  (list_ascii_of_string "H5") []
                  (or_intror (ex_intro _ (list_ascii_of_string "./run/")
                                       eq_refl))
                  ltac:(simpl; intros H;
                        repeat (destruct H as [H | H];
                                [discriminate H | ]); exact H)
                  ltac:(discriminate) ltac:(discriminate)
                  ltac:(simpl; intros H;
                        repeat (destruct H as [H | H];
                                [discriminate H | ]); exact H)
                  eq_refl eq_refl)).
  reflexivity.
Defined.

(** ** The extracting pass on any hierarchy *)

Lemma extract_post_ret cands images mc w :
  extract_post cands images mc w (Ok images, w).
Proof.
  exists []. split; [intros x [] | ]. simpl. rewrite !app_nil_r, world_eta.
  split; [reflexivity | ]. intros imgs H. inversion H; subst.
  split; [reflexivity | ]. intros m _. lia.
Qed.

Lemma extract_post_raise cands images mc w e :
  extract_post cands images mc w (Raise e, w).
Proof.
  exists []. split; [intros x [] | ]. simpl. rewrite app_nil_r, world_eta.
  split; [reflexivity | ]. intros imgs H. discriminate H.
Qed.

Lemma extract_post_incl cands cands' images mc w res :
  incl cands cands' ->
  extract_post cands images mc w res -> extract_post cands' images mc w res.
Proof.
  intros Hincl (vis & Hvis & Hw & Himgs). exists vis.
  split; [ | split; assumption].
  intros x Hx. apply Hincl, Hvis, Hx.
Qed.

Lemma extract_post_bind c1 c2 images mc w m1 k :
  extract_post c1 images mc w (m1 w) ->
  (forall i1 w1, m1 w = (Ok i1, w1) -> extract_post c2 i1 mc w1 (k i1 w1)) ->
  extract_post (c1 ++ c2) images mc w (bind m1 k w).
Proof.
  intros (v1 & Hv1 & Hw1 & Hi1) H2. unfold bind.
  destruct (m1 w) as [[i1 | e] w1] eqn:E; simpl in *.
  - destruct (H2 i1 w1 eq_refl) as (v2 & Hv2 & Hw2 & Hi2).
    destruct (Hi1 i1 eq_refl) as [Ei1 Hb1].
    exists (v1 ++ v2). split; [ | split].
    + apply incl_app; [apply incl_appl | apply incl_appr]; assumption.
    + rewrite Hw2, Hw1. simpl. rewrite flat_map_app, app_assoc. reflexivity.
    + intros imgs Himgs. destruct (Hi2 imgs Himgs) as [Ei2 Hb2].
      split.
      * rewrite Ei2, Ei1. unfold readable_images.
        rewrite flat_map_app, app_assoc. reflexivity.
      * intros m Hm. specialize (Hb1 m Hm). specialize (Hb2 m Hm). lia.
  - exists v1. split; [ | split].
    + apply incl_appl, Hv1.
    + exact Hw1.
    + intros imgs H. discriminate H.
Qed.

Lemma extract_post_visit a images mc w :
  reached images mc = false ->
  extract_post [a] images mc w
    (Ok (images ++ image_of a),
     mk_world (self w) (trace w ++ visit_events a)).
Proof.
  intros R. exists [a]. split; [apply incl_refl | ]. simpl.
  rewrite !app_nil_r. split; [reflexivity | ].
  intros imgs H. inversion H; subst. split; [reflexivity | ].
  intros m ->. simpl in R. apply Z.leb_gt in R. rewrite len_app.
  assert (len (image_of a) <= 1).
  { unfold image_of. destruct (stored a); [rewrite len_cons | ];
      rewrite len_nil; lia. }
  lia.
Qed.

Lemma extract_loop_post :
  (forall n images mc w,
     extract_post (filter is_image (walk_node n)) images mc w
       (_recursive_extract_arrays n images mc w))
  /\ (forall it images mc w,
        extract_post (image_candidates it) images mc w
          (extract_loop it images mc w)).
Proof.
  apply node_mutind.
  - intros a images mc w. simpl _recursive_extract_arrays.
    destruct (reached images mc);
      [apply extract_post_ret | apply extract_post_raise].
  - intros p it IH images mc w. simpl _recursive_extract_arrays.
    destruct (reached images mc); [apply extract_post_ret | apply IH].
  - intros p images mc w. simpl _recursive_extract_arrays.
    destruct (reached images mc);
      [apply extract_post_ret | apply extract_post_raise].
  - intros images mc w. apply extract_post_ret.
  - intros child IHc rest IHr images mc w.
    destruct (reached images mc) eqn:R.
    + simpl. rewrite R. apply extract_post_ret.
    + destruct child as [a | p it | p].
      * simpl. rewrite R. fold (is_image a).
        rewrite image_candidates_array. destruct (is_image a).
        -- apply (extract_post_bind [a] (image_candidates rest)).
           ++ rewrite visit_array. apply extract_post_visit, R.
           ++ intros i1 w1 _. apply IHr.
        -- apply IHr.
      * change (extract_loop (Yield (Group p it) rest) images mc w)
          with ((if reached images mc then ret images
                 else bind (_recursive_extract_arrays (Group p it) images mc)
                           (fun im => extract_loop rest im mc)) w).
        rewrite R, image_candidates_group.
        apply extract_post_bind.
        -- apply IHc.
        -- intros i1 w1 _. apply IHr.
      * simpl. rewrite R. apply IHr.
  - intros e images mc w. apply extract_post_raise.
Qed.

Lemma _extract_from_file_post fs path mc w f :
  open_file fs path = Ok f ->
  extract_post (candidates_of f) [] mc w (_extract_from_file fs path mc w).
Proof.
  intros Hopen. unfold _extract_from_file, bind, lift. rewrite Hopen.
  destruct extract_loop_post as [Hn _]. apply (Hn (root f)).
Qed.

Lemma readable_images_rank vis x :
  (forall a, In a vis -> is_image a = true) ->
  In x (readable_images vis) -> 2 <= len (nd_shape x).
Proof.
  intros Hvis Hx. apply in_flat_map in Hx. destruct Hx as (a & Ha & Hx).
  specialize (Hvis a Ha). unfold is_image in Hvis. apply Z.leb_le in Hvis.
  unfold image_of in Hx. destruct (stored a); [ | destruct Hx].
  destruct Hx as [<- | []]. exact Hvis.
Qed.

(** X6. Whatever the file (groups that fail to load, datasets that fail
    to read), a list that [_extract_from_file] returns for a bound [m]
    never has more than [m] arrays (none for [m <= 0]), and with or
    without a bound every array in it has rank at least 2. *)
Theorem _extract_from_file_result fs path mc w imgs w' :
  _extract_from_file fs path mc w = (Ok imgs, w') ->
  (forall x, In x imgs -> 2 <= len (nd_shape x))
  /\ (forall m, mc = Some m -> len imgs <= Z.max m 0).
Proof.
  intros H. unfold _extract_from_file, bind, lift in H.
  destruct (open_file fs path) as [f | e] eqn:Hopen; [ | discriminate H].
  pose proof (_extract_from_file_post fs path mc w f Hopen)
    as (vis & Hvis & _ & Himgs).
  unfold _extract_from_file, bind, lift in Himgs. rewrite Hopen in Himgs.
  rewrite H in Himgs. destruct (Himgs imgs eq_refl) as [E Hb].
  split.
  - intros x Hx. rewrite E in Hx. simpl in Hx.
    apply (readable_images_rank vis); [ | exact Hx].
    intros a Ha. apply Hvis in Ha. unfold candidates_of, image_candidates in Ha.
    apply filter_In in Ha. apply Ha.
  - intros m Hm. specialize (Hb m Hm). rewrite len_nil in Hb. exact Hb.
Qed.

Lemma _extract_from_file_result_witness :
  (forall x,
     In x [mk_ndarray [2; 2] uint8 [1; 2; 3; 4]] -> 2 <= len (nd_shape x))
  /\ (forall m,
        Some 1 = Some m ->
        len [mk_ndarray [2; 2] uint8 [1; 2; 3; 4]] <= Z.max m 0).
Proof.
  apply (_extract_from_file_result (fs_of damaged_file) "d.h5" (Some 1)
           (scanned_world "d.h5" 3)
           [mk_ndarray [2; 2] uint8 [1; 2; 3; 4]]
           (mk_world (mk_extractor "d.h5" 3) [EvRead "/x"])).
  reflexivity.
Defined.

(** X7. The extracting pass reads image candidates only: whatever the
    file and the bound, and whether the pass returns or raises, every
    dataset read is an array of rank at least 2 of the hierarchy; arrays
    of rank 0 or 1 and other leaves are never read.  Each unreadable one
    is followed by its warning, and the extractor itself is unchanged. *)
Theorem _extract_from_file_reads fs path mc w f :
  open_file fs path = Ok f ->
  exists vis,
    snd (_extract_from_file fs path mc w)
    = mk_world (self w) (trace w ++ flat_map visit_events vis)
    /\ (forall a,
          In a vis ->
          In a (walk (root_children f)) /\ 2 <= len (shape a)).
Proof.
  intros Hopen.
  destruct (_extract_from_file_post fs path mc w f Hopen)
    as (vis & Hvis & Hw & _).
  exists vis. split; [exact Hw | ].
  intros a Ha. apply Hvis in Ha. unfold candidates_of, image_candidates in Ha.
  apply filter_In in Ha. destruct Ha as [Hin Him].
  split; [exact Hin | ]. unfold is_image in Him. apply Z.leb_le, Him.
Qed.

Lemma _extract_from_file_reads_witness :
  exists vis,
    snd (_extract_from_file (fs_of nested_file) "data.h5" None
           (fresh "data.h5"))
    = mk_world (self (fresh "data.h5"))
        (trace (fresh "data.h5") ++ flat_map visit_events vis)
    /\ (forall a,
          In a vis ->
          In a (walk (root_children (mk_file nested_file)))
          /\ 2 <= len (shape a)).
Proof.
  apply (_extract_from_file_reads (fs_of nested_file) "data.h5" None
           (fresh "data.h5") (mk_file nested_file)).
  reflexivity.
Defined.

(** ** Extraction without a bound, from a changed file, from an unreadable one *)

Lemma visited_unbounded cands : forall images,
  visited cands images None = cands.
Proof.
  induction cands as [ | a cands IH]; intros images; simpl;
    [ | rewrite IH]; reflexivity.
Qed.

(** X8. Called without [max_count], [_extract_from_file] on a file that
    opens and whose nodes load visits every image candidate in
    depth-first order and returns all the readable ones, each unreadable
    one leaving its warning. *)
Theorem _extract_from_file_unbounded fs path w f :
  open_file fs path = Ok f ->
  iter_ok (root_children f) = true ->
  _extract_from_file fs path None w
  = (Ok (all_images f),
     mk_world (self w)
              (trace w ++ flat_map visit_events (candidates_of f))).
Proof.
  intros Hopen Hiter. rewrite (_extract_from_file_ok fs f) by assumption.
  unfold scanned. rewrite take_images_fst, take_images_snd. simpl.
  rewrite visited_unbounded. fold (candidates_of f). fold (all_images f).
  rewrite firstn_all. reflexivity.
Qed.

Lemma _extract_from_file_unbounded_witness :
  _extract_from_file (fs_of damaged_file) "d.h5" None (fresh "d.h5")
  = (Ok (all_images (mk_file damaged_file)),
     mk_world (self (fresh "d.h5"))
       (trace (fresh "d.h5")
        ++ flat_map visit_events (candidates_of (mk_file damaged_file)))).
Proof.
  apply (_extract_from_file_unbounded (fs_of damaged_file) "d.h5"
           (fresh "d.h5") (mk_file damaged_file));
    reflexivity.
Defined.

Lemma no_warning_in_read_events l msg : ~ In (EvWarn msg) (read_events l).
Proof.
  unfold read_events. intros H. apply in_map_iff in H.
  destruct H as (a & Ha & _). discriminate Ha.
Qed.

(** X9. When the cached count is larger than the number of candidates
    the file holds by the time of the extraction (the file was replaced,
    say), a request within the cached count and beyond the candidates
    passes the checks; with every candidate readable the pass hands on all
    of them, fewer than asked, and warns about nothing. *)
Theorem extract_images_stale_count fs f w n :
  open_file fs (file_path (self w)) = Ok f ->
  iter_ok (root_children f) = true ->
  forallb readable (candidates_of f) = true ->
  len (candidates_of f) < n <= total_images (self w) ->
  len (all_images f) < n
  /\ extract_images fs (Some n) w
     = stack_or_fallback (all_images f)
         (mk_world (self w) (trace w ++ read_events (candidates_of f)))
  /\ (forall msg, ~ In (EvWarn msg) (read_events (candidates_of f))).
Proof.
  intros Hopen Hiter Hread Hn.
  pose proof (len_all_images f Hread) as Hlen.
  pose proof (len_nonneg (candidates_of f)) as Hpos.
  split; [lia | ]. split; [ | intros msg; apply no_warning_in_read_events].
  rewrite extract_images_in_range by lia. unfold bind.
  rewrite (_extract_from_file_readable fs f) by assumption.
  rewrite !firstn_all2 by (unfold len in *; lia).
  reflexivity.
Qed.

Lemma extract_images_stale_count_witness :
  len (all_images (mk_file nested_file)) < 4
  /\ extract_images (fs_of nested_file) (Some 4) (scanned_world "data.h5" 5)
     = stack_or_fallback (all_images (mk_file nested_file))
         (mk_world (self (scanned_world "data.h5" 5))
            (trace (scanned_world "data.h5" 5)
             ++ read_events (candidates_of (mk_file nested_file))))
  /\ (forall msg,
        ~ In (EvWarn msg) (read_events (candidates_of (mk_file nested_file)))).
Proof.
  apply (extract_images_stale_count (fs_of nested_file) (mk_file nested_file)
           (scanned_world "data.h5" 5) 4);
    [reflexivity | reflexivity | reflexivity
    | vm_compute; split; [reflexivity | discriminate]].
Defined.

(** X10. When no candidate can be read, [extract_images] does not fail:
    within the cached count it visits every candidate, warns about each,
    and returns the empty [float64] array of shape (0,). *)
Theorem extract_images_nothing_readable fs f w n :
  open_file fs (file_path (self w)) = Ok f ->
  iter_ok (root_children f) = true ->
  all_images f = [] ->
  1 <= n <= total_images (self w) ->
  extract_images fs (Some n) w
  = (Ok (Stacked [0] float64 []),
     mk_world (self w)
              (trace w ++ flat_map visit_events (candidates_of f))).
Proof.
  intros Hopen Hiter Hnone Hn.
  rewrite extract_images_in_range by exact Hn. unfold bind.
  rewrite (_extract_from_file_bounded fs f) by assumption.
  rewrite visited_exhausted
    by (change (readable_images (candidates_of f)) with (all_images f);
        rewrite Hnone; unfold len; simpl; lia).
  rewrite Hnone, firstn_nil. reflexivity.
Qed.

Lemma extract_images_nothing_readable_witness :
  extract_images (fs_of unreadable_file) (Some 1) (scanned_world "u.h5" 2)
  = (Ok (Stacked [0] float64 []),
     mk_world (self (scanned_world "u.h5" 2))
       (trace (scanned_world "u.h5" 2)
        ++ flat_map visit_events (candidates_of (mk_file unreadable_file)))).
Proof.
  apply (extract_images_nothing_readable (fs_of unreadable_file)
           (mk_file unreadable_file) (scanned_world "u.h5" 2) 1);
    [reflexivity | reflexivity | reflexivity
    | vm_compute; split; discriminate].
Defined.

(** ** The one-call function and the example script *)

Lemma extract_images_omitted fs w :
  extract_images fs None w
  = extract_images fs (Some (total_images (self w))) w.
Proof. reflexivity. Qed.

(** Construction and scan, one after the other, on a regular file. *)
Lemma construct_and_scan fs path w :
  path_exists fs (Path path) = true ->
  path_is_file fs (Path path) = true ->
  (__init__ fs path ;;; scan_file fs) w
  = (Ok (scan_count fs (Path path)),
     mk_world (mk_extractor (Path path) (scan_count fs (Path path)))
              (trace w ++ init_events (Path path)
               ++ scan_events fs (Path path))).
Proof.
  intros Hex Hfile. unfold bind. rewrite __init___cases, Hex, Hfile. simpl.
  rewrite scan_file_any. simpl. rewrite <- app_assoc. reflexivity.
Qed.

Lemma extract_h5_images_split fs path n stdin w k :
  extract_h5_images fs path n stdin w
  = bind (__init__ fs path ;;; scan_file fs) (fun _ => k) w ->
  path_exists fs (Path path) = true ->
  path_is_file fs (Path path) = true ->
  extract_h5_images fs path n stdin w
  = k (mk_world (mk_extractor (Path path) (scan_count fs (Path path)))
                (trace w ++ init_events (Path path)
                 ++ scan_events fs (Path path))).
Proof.
  intros E Hex Hfile. rewrite E. unfold bind at 1.
  rewrite construct_and_scan by assumption. reflexivity.
Qed.

Lemma extract_h5_images_assoc fs path n stdin w :
  extract_h5_images fs path n stdin w
  = bind (__init__ fs path ;;; scan_file fs)
      (fun _ =>
         match n with
         | None =>
             line <- lift stdin ;;
             if negb (String.eqb (lower (strip line)) "y")
             then lift (np_array [] false)
             else extract_images fs n
         | Some _ => extract_images fs n
         end) w.
Proof.
  unfold extract_h5_images, bind.
  destruct (__init__ fs path w) as [[u | e] w1]; [ | reflexivity].
  destruct (scan_file fs w1) as [[c | e] w2]; reflexivity.
Qed.

Lemma scan_count_ok fs path f :
  open_file fs path = Ok f ->
  iter_ok (root_children f) = true ->
  scan_count fs path = len (candidates_of f) /\ scan_events fs path = [].
Proof.
  intros Hopen Hiter. unfold scan_count, scan_events, count_outcome.
  rewrite Hopen.
  destruct first_failure_iter_ok as [_ Hff].
  apply Hff in Hiter. rewrite Hiter. split; reflexivity.
Qed.

(** X11. [extract_h5_images] with a count: on a regular file that opens
    and whose nodes load, with [1 <= n] and at most as many as there are
    candidates, the call builds the extractor on the path as [Path]
    prints it, scans, and assembles the first [n] readable candidates;
    candidates that cannot be read are passed over with a warning.
    Nothing is asked on standard input. *)
Theorem extract_h5_images_counted fs path n stdin w f :
  path_exists fs (Path path) = true ->
  path_is_file fs (Path path) = true ->
  open_file fs (Path path) = Ok f ->
  iter_ok (root_children f) = true ->
  1 <= n <= len (candidates_of f) ->
  extract_h5_images fs path (Some n) stdin w
  = stack_or_fallback (firstn (Z.to_nat n) (all_images f))
      (mk_world (mk_extractor (Path path) (len (candidates_of f)))
         (trace w ++ init_events (Path path)
          ++ flat_map visit_events (visited (candidates_of f) [] (Some n)))).
Proof.
  intros Hex Hfile Hopen Hiter Hn.
  rewrite (extract_h5_images_split fs path (Some n) stdin w
             (extract_images fs (Some n)))
    by (assumption || apply extract_h5_images_assoc).
  destruct (scan_count_ok fs (Path path) f Hopen Hiter) as [-> ->].
  rewrite app_nil_r.
  rewrite extract_images_in_range by (simpl; exact Hn).
  unfold bind. simpl file_path.
  rewrite (_extract_from_file_bounded fs f) by assumption.
  simpl. rewrite <- app_assoc. reflexivity.
Qed.

Lemma extract_h5_images_counted_witness :
  extract_h5_images (fs_of damaged_file) "./d.dat" (Some 2)
    (Raise hdf5_error) (fresh "")
  = stack_or_fallback (firstn (Z.to_nat 2) (all_images (mk_file damaged_file)))
      (mk_world (mk_extractor (Path "./d.dat")
                   (len (candidates_of (mk_file damaged_file))))
         (trace (fresh "") ++ init_events (Path "./d.dat")
          ++ flat_map visit_events
               (visited (candidates_of (mk_file damaged_file)) []
                  (Some 2)))).
Proof.
  apply (extract_h5_images_counted (fs_of damaged_file) "./d.dat" 2
           (Raise hdf5_error) (fresh "") (mk_file damaged_file));
    [reflexivity | reflexivity | reflexivity | reflexivity
    | vm_compute; split; discriminate].
Defined.

(** The same run, written out: the warning shows [d.dat]. *)
Example extract_h5_images_dot_slash :
  extract_h5_images (fs_of damaged_file) "./d.dat" (Some 2)
    (Raise hdf5_error) (fresh "")
  = (Ok (Stacked [2; 2; 2] uint8
           [mk_ndarray [2; 2] uint8 [1; 2; 3; 4];
            mk_ndarray [2; 2] uint8 [5; 6; 7; 8]]),
     mk_world (mk_extractor "d.dat" 3)
       [EvWarn "File doesn't have .h5 extension: d.dat";
        EvRead "/x"; EvRead "/y";
        EvWarn "Could not read dataset '/y': Problems reading the array data.";
        EvRead "/z"]).
Proof. reflexivity. Qed.

Lemma no_read_in_warnings path fs p :
  ~ In (EvRead p) (init_events path ++ scan_events fs path).
Proof.
  intros H. apply in_app_or in H. destruct H as [H | H].
  - unfold init_events in H.
    destruct (negb _); simpl in H;
      [destruct H as [H | []]; discriminate H | exact H].
  - unfold scan_events in H.
    destruct (count_outcome fs path); simpl in H;
      [exact H | destruct H as [H | []]; discriminate H].
Qed.

(** X12. [extract_h5_images] without a count, the answer not being [y]
    (once stripped of white space and put in lower case): on a regular
    file the call returns the empty array and reads no dataset, whatever
    the scan found, also for a file without images or one that does not
    open, where an extraction would raise. *)
Theorem extract_h5_images_declined fs path line w :
  path_exists fs (Path path) = true ->
  path_is_file fs (Path path) = true ->
  lower (strip line) <> "y" ->
  extract_h5_images fs path None (Ok line) w
  = (Ok np_empty,
     mk_world (mk_extractor (Path path) (scan_count fs (Path path)))
              (trace w ++ init_events (Path path)
               ++ scan_events fs (Path path)))
  /\ (forall p,
        ~ In (EvRead p)
             (init_events (Path path) ++ scan_events fs (Path path))).
Proof.
  intros Hex Hfile Hline. split; [ | intros p; apply no_read_in_warnings].
  rewrite (extract_h5_images_split fs path None (Ok line) w
             (line0 <- lift (Ok line) ;;
              if negb (String.eqb (lower (strip line0)) "y")
              then lift (np_array [] false)
              else extract_images fs None))
    by (assumption || apply extract_h5_images_assoc).
  unfold bind, lift.
  destruct (String.eqb (lower (strip line)) "y") eqn:E.
  - apply String.eqb_eq in E. contradiction.
  - reflexivity.
Qed.

Lemma extract_h5_images_declined_witness :
  extract_h5_images (fs_of StopIteration) "empty.h5" None (Ok " no ")
    (fresh "")
  = (Ok np_empty,
     mk_world (mk_extractor (Path "empty.h5")
                 (scan_count (fs_of StopIteration) (Path "empty.h5")))
       (trace (fresh "") ++ init_events (Path "empty.h5")
        ++ scan_events (fs_of StopIteration) (Path "empty.h5")))
  /\ (forall p,
        ~ In (EvRead p)
             (init_events (Path "empty.h5")
              ++ scan_events (fs_of StopIteration) (Path "empty.h5"))).
Proof.
  apply (extract_h5_images_declined (fs_of StopIteration) "empty.h5" " no "
           (fresh ""));
    [reflexivity | reflexivity | discriminate].
Defined.

(** A no-break space (U+00A0, bytes 194 160) before [y] is stripped like
    any white space: the answer confirms. *)
Example strip_no_break_space :
  lower (strip (String (ascii_of_nat 194) (String (ascii_of_nat 160) "Y")))
  = "y".
Proof. reflexivity. Qed.

(** X13. [extract_h5_images] without a count, the answer being [y] with
    whatever white space around it and in either case: the call does what
    it does when given the count the scan found; in particular it raises
    the "No images found" error when the scan found none. *)
Theorem extract_h5_images_confirmed fs path line stdin w :
  lower (strip line) = "y" ->
  extract_h5_images fs path None (Ok line) w
  = extract_h5_images fs path (Some (scan_count fs (Path path))) stdin w
  /\ (path_exists fs (Path path) = true ->
      path_is_file fs (Path path) = true ->
      scan_count fs (Path path) = 0 ->
      fst (extract_h5_images fs path None (Ok line) w) = Raise InvalidState).
Proof.
  intros Hline.
  assert (Hbody : extract_h5_images fs path None (Ok line) w
                  = bind (__init__ fs path ;;; scan_file fs)
                      (fun _ => extract_images fs None) w).
  { rewrite extract_h5_images_assoc. unfold bind, lift.
    destruct (__init__ fs path w) as [[u | e] w1]; [ | reflexivity].
    destruct (scan_file fs w1) as [[c | e] w2]; [ | reflexivity].
    rewrite Hline. reflexivity. }
  split.
  - rewrite Hbody, extract_h5_images_assoc. unfold bind.
    rewrite __init___cases.
    destruct (negb (path_exists fs (Path path))); [reflexivity | ].
    destruct (negb (path_is_file fs (Path path))); [reflexivity | ].
    rewrite scan_file_any. simpl. rewrite extract_images_omitted. reflexivity.
  - intros Hex Hfile H0. rewrite Hbody. unfold bind at 1.
    rewrite construct_and_scan by assumption.
    rewrite extract_images_no_count by (simpl; exact H0). reflexivity.
Qed.

Lemma extract_h5_images_confirmed_witness :
  extract_h5_images (fs_of nested_file) "data.h5" None (Ok "  Y ")
    (fresh "")
  = extract_h5_images (fs_of nested_file) "data.h5"
      (Some (scan_count (fs_of nested_file) (Path "data.h5")))
      (Raise hdf5_error) (fresh "")
  /\ (path_exists (fs_of nested_file) (Path "data.h5") = true ->
      path_is_file (fs_of nested_file) (Path "data.h5") = true ->
      scan_count (fs_of nested_file) (Path "data.h5") = 0 ->
      fst (extract_h5_images (fs_of nested_file) "data.h5" None (Ok "  Y ")
             (fresh ""))
      = Raise InvalidState).
Proof.
  apply (extract_h5_images_confirmed (fs_of nested_file) "data.h5" "  Y "
           (Raise hdf5_error) (fresh "")).
  reflexivity.
Defined.

(** X14. [example_detailed] asks for ten images: on a regular file it
    raises the "No images found" error when the scan finds none (or
    fails), raises the out-of-range error when the scan finds one to
    nine, and with ten candidates or more in a file whose nodes load it
    assembles the first ten readable ones.  The extractor holds the path
    as [Path] prints it. *)
Theorem example_detailed_needs_ten fs path w :
  path_exists fs (Path path) = true ->
  path_is_file fs (Path path) = true ->
  (scan_count fs (Path path) = 0 ->
   fst (example_detailed fs path w) = Raise InvalidState)
  /\ (1 <= scan_count fs (Path path) < 10 ->
      fst (example_detailed fs path w)
      = Raise (OutOfRange 10 (scan_count fs (Path path))))
  /\ (forall f,
        open_file fs (Path path) = Ok f ->
        iter_ok (root_children f) = true ->
        10 <= len (candidates_of f) ->
        example_detailed fs path w
        = stack_or_fallback (firstn 10 (all_images f))
            (mk_world (mk_extractor (Path path) (len (candidates_of f)))
               (trace w ++ init_events (Path path)
                ++ flat_map visit_events
                     (visited (candidates_of f) [] (Some 10))))).
Proof.
  intros Hex Hfile.
  assert (E : example_detailed fs path w
              = bind (extract_images fs (Some 10)) ret
                  (mk_world
                     (mk_extractor (Path path) (scan_count fs (Path path)))
                     (trace w ++ init_events (Path path)
                      ++ scan_events fs (Path path)))).
  { unfold example_detailed.
    assert (H : (__init__ fs (Path path) ;;; scan_file fs) w
                = (Ok (scan_count fs (Path path)),
                   mk_world
                     (mk_extractor (Path path) (scan_count fs (Path path)))
                     (trace w ++ init_events (Path path)
                      ++ scan_events fs (Path path)))).
    { rewrite construct_and_scan by (rewrite Path_idem; assumption).
      rewrite Path_idem. reflexivity. }
    unfold bind in *.
    destruct (__init__ fs (Path path) w) as [[u | e] w1]; [ | discriminate H].
    rewrite H. reflexivity. }
  rewrite E. split; [ | split].
  - intros H0. unfold bind.
    rewrite extract_images_no_count by (simpl; exact H0). reflexivity.
  - intros Hc. unfold bind, extract_images at 1, bind, get_total_images.
    simpl.
    destruct (scan_count fs (Path path) =? 0) eqn:E0;
      [apply Z.eqb_eq in E0; lia | ].
    destruct (10 >? scan_count fs (Path path)) eqn:E1; [reflexivity | ].
    rewrite Z.gtb_ltb in E1. apply Z.ltb_ge in E1. lia.
  - intros f Hopen Hiter Hten.
    destruct (scan_count_ok fs (Path path) f Hopen Hiter) as [-> ->].
    rewrite app_nil_r. unfold bind at 1.
    rewrite extract_images_in_range by (simpl; lia).
    unfold bind at 1. simpl file_path.
    rewrite (_extract_from_file_bounded fs f) by assumption.
    simpl self. simpl trace. rewrite <- app_assoc.
    change (Z.to_nat 10) with 10%nat.
    destruct (stack_or_fallback _ _) as [[v | e] w2]; reflexivity.
Qed.

Lemma example_detailed_needs_ten_witness :
  fst (example_detailed (fs_of nested_file) "./data.h5" (fresh ""))
  = Raise (OutOfRange 10 (scan_count (fs_of nested_file) (Path "./data.h5"))).
Proof.
  apply (proj1 (proj2 (example_detailed_needs_ten (fs_of nested_file)
                         "./data.h5" (fresh "") eq_refl eq_refl))).
  vm_compute. split; [discriminate | reflexivity].
Defined.

(** Twelve frames of one shape: the example returns the first ten. *)
Example example_detailed_frames :
  fst (example_detailed (fs_of (frames 12)) "frames.h5" (fresh ""))
  = Ok (Stacked [10; 2; 2] uint8
          (repeat (mk_ndarray [2; 2] uint8 [0; 0; 0; 0]) 10)).
Proof. reflexivity. Qed.

(** ** What the extracting pass hands on, and what the call returns *)

(** X15. On a file that opens, whose nodes load and whose candidates
    are all readable, [_extract_from_file] with a bound [n] between 0 and
    the number of candidates returns exactly [n] arrays, the first [n]
    in depth-first order of the list it returns for the full count, and
    reads the first [n] candidates and no other. *)
Theorem _extract_from_file_prefix fs f path w n :
  open_file fs path = Ok f ->
  iter_ok (root_children f) = true ->
  forallb readable (candidates_of f) = true ->
  0 <= n <= len (candidates_of f) ->
  _extract_from_file fs path (Some n) w
  = (Ok (firstn (Z.to_nat n) (all_images f)),
     mk_world (self w)
       (trace w ++ read_events (firstn (Z.to_nat n) (candidates_of f))))
  /\ len (firstn (Z.to_nat n) (all_images f)) = n
  /\ _extract_from_file fs path (Some (len (candidates_of f))) w
     = (Ok (all_images f),
        mk_world (self w) (trace w ++ read_events (candidates_of f))).
Proof.
  intros Hopen Hiter Hread Hn.
  pose proof (len_all_images f Hread) as Hlen.
  split; [ | split].
  - apply (_extract_from_file_readable fs f); assumption.
  - apply len_firstn. lia.
  - rewrite (_extract_from_file_readable fs f) by assumption.
    rewrite firstn_len. rewrite <- Hlen, firstn_len. reflexivity.
Qed.

Lemma _extract_from_file_prefix_witness :
  _extract_from_file (fs_of nested_file) "data.h5" (Some 1) (fresh "data.h5")
  = (Ok (firstn (Z.to_nat 1) (all_images (mk_file nested_file))),
     mk_world (self (fresh "data.h5"))
       (trace (fresh "data.h5")
        ++ read_events
             (firstn (Z.to_nat 1) (candidates_of (mk_file nested_file)))))
  /\ len (firstn (Z.to_nat 1) (all_images (mk_file nested_file))) = 1
  /\ _extract_from_file (fs_of nested_file) "data.h5"
       (Some (len (candidates_of (mk_file nested_file)))) (fresh "data.h5")
     = (Ok (all_images (mk_file nested_file)),
        mk_world (self (fresh "data.h5"))
          (trace (fresh "data.h5")
           ++ read_events (candidates_of (mk_file nested_file)))).
Proof.
  apply (_extract_from_file_prefix (fs_of nested_file) (mk_file nested_file)
           "data.h5" (fresh "data.h5") 1);
    [reflexivity | reflexivity | reflexivity
    | vm_compute; split; discriminate].
Defined.

(** X16. On a file that opens and whose nodes load, [_extract_from_file]
    with a bound [n >= 0] never fails on a candidate that cannot be
    read: it returns the first [n] readable candidates, so an unreadable
    one takes no place among the [n], and each unreadable candidate it
    visits leaves a warning.  With at least [n] readable candidates the
    list has [n] arrays; with fewer it has all the readable ones and
    every unreadable candidate has its warning in the trace. *)
Theorem _extract_from_file_skips_unreadable fs f path w n :
  open_file fs path = Ok f ->
  iter_ok (root_children f) = true ->
  0 <= n ->
  exists w',
    _extract_from_file fs path (Some n) w
    = (Ok (firstn (Z.to_nat n) (all_images f)), w')
    /\ trace w'
       = trace w
         ++ flat_map visit_events (visited (candidates_of f) [] (Some n))
    /\ (forall a e,
          In a (visited (candidates_of f) [] (Some n)) ->
          stored a = Raise e ->
          In (EvWarn (msg_could_not_read a e))
             (flat_map visit_events (visited (candidates_of f) [] (Some n))))
    /\ (n <= len (all_images f) ->
        len (firstn (Z.to_nat n) (all_images f)) = n)
    /\ (len (all_images f) < n ->
        firstn (Z.to_nat n) (all_images f) = all_images f
        /\ visited (candidates_of f) [] (Some n) = candidates_of f).
Proof.
  intros Hopen Hiter Hn.
  eexists. split; [ | split; [ | split; [ | split]]].
  - apply (_extract_from_file_bounded fs f); assumption.
  - reflexivity.
  - intros a e Hin Hst. apply warning_of_visited; assumption.
  - intros Hle. apply len_firstn. lia.
  - intros Hlt. split.
    + apply firstn_all2. unfold len in Hlt. lia.
    + apply visited_exhausted. rewrite len_nil. exact Hlt.
Qed.

Lemma _extract_from_file_skips_unreadable_witness :
  exists w',
    _extract_from_file (fs_of damaged_file) "d.h5" (Some 3)
      (scanned_world "d.h5" 3)
    = (Ok (firstn (Z.to_nat 3) (all_images (mk_file damaged_file))), w')
    /\ trace w'
       = trace (scanned_world "d.h5" 3)
         ++ flat_map visit_events
              (visited (candidates_of (mk_file damaged_file)) [] (Some 3))
    /\ (forall a e,
          In a (visited (candidates_of (mk_file damaged_file)) [] (Some 3)) ->
          stored a = Raise e ->
          In (EvWarn (msg_could_not_read a e))
             (flat_map visit_events
                (visited (candidates_of (mk_file damaged_file)) []
                   (Some 3))))
    /\ (3 <= len (all_images (mk_file damaged_file)) ->
        len (firstn (Z.to_nat 3) (all_images (mk_file damaged_file))) = 3)
    /\ (len (all_images (mk_file damaged_file)) < 3 ->
        firstn (Z.to_nat 3) (all_images (mk_file damaged_file))
        = all_images (mk_file damaged_file)
        /\ visited (candidates_of (mk_file damaged_file)) [] (Some 3)
           = candidates_of (mk_file damaged_file)).
Proof.
  apply (_extract_from_file_skips_unreadable (fs_of damaged_file)
           (mk_file damaged_file) "d.h5" (scanned_world "d.h5" 3) 3);
    [reflexivity | reflexivity | discriminate].
Defined.

(** X17. On a file that opens and whose nodes load, [extract_images(n)]
    within the cached count returns the first [n] readable candidates
    stacked, with their number as the first dimension, when there is at
    least one and they all have one shape; it warns and returns them as
    an object array of that length when they do not agree on their first
    dimension. *)
Theorem extract_images_returns fs f w n :
  open_file fs (file_path (self w)) = Ok f ->
  iter_ok (root_children f) = true ->
  1 <= n <= total_images (self w) ->
  (forall s,
     firstn (Z.to_nat n) (all_images f) <> [] ->
     (forall a, In a (firstn (Z.to_nat n) (all_images f)) -> nd_shape a = s) ->
     extract_images fs (Some n) w
     = (Ok (Stacked (len (firstn (Z.to_nat n) (all_images f)) :: s)
              (result_type (firstn (Z.to_nat n) (all_images f)))
              (firstn (Z.to_nat n) (all_images f))),
        mk_world (self w)
          (trace w
           ++ flat_map visit_events
                (visited (candidates_of f) [] (Some n)))))
  /\ (~ same_first_dim (firstn (Z.to_nat n) (all_images f)) ->
      extract_images fs (Some n) w
      = (Ok (ObjectArray [len (firstn (Z.to_nat n) (all_images f))]
               (firstn (Z.to_nat n) (all_images f))),
         mk_world (self w)
           ((trace w
             ++ flat_map visit_events
                  (visited (candidates_of f) [] (Some n)))
            ++ [EvWarn msg_inconsistent]))).
Proof.
  intros Hopen Hiter Hn.
  rewrite (extract_images_sound_file fs f) by assumption.
  split.
  - intros s Hne Hs. apply stack_or_fallback_same_shape; assumption.
  - intros Hd. rewrite stack_or_fallback_first_dim by exact Hd. reflexivity.
Qed.

Lemma extract_images_returns_witness :
  extract_images (fs_of damaged_file) (Some 2) (scanned_world "d.h5" 3)
  = (Ok (Stacked
           (len (firstn (Z.to_nat 2) (all_images (mk_file damaged_file)))
            :: [2; 2])
           (result_type (firstn (Z.to_nat 2)
                           (all_images (mk_file damaged_file))))
           (firstn (Z.to_nat 2) (all_images (mk_file damaged_file)))),
     mk_world (self (scanned_world "d.h5" 3))
       (trace (scanned_world "d.h5" 3)
        ++ flat_map visit_events
             (visited (candidates_of (mk_file damaged_file)) [] (Some 2)))).
Proof.
  apply (proj1 (extract_images_returns (fs_of damaged_file)
                  (mk_file damaged_file) (scanned_world "d.h5" 3) 2
                  eq_refl eq_refl
                  ltac:(vm_compute; split; discriminate))).
  - discriminate.
  - intros a [<- | [<- | []]]; reflexivity.
Defined.
